(** * gocb N1QL query core: plan cache, retry loop and result cursor

    A shallow embedding of [query.go]: the result cursor [n1qlResults],
    the option builder [createQueryOpts], the timeout reconciliation and
    retry loop of [Cluster.query], the prepared-statement orchestration
    ([doPreparedN1qlQuery], [prepareN1qlQuery]) and the dispatcher
    [executeN1qlQuery].

    Conventions of the embedding:
    - a Go [map[string]interface{}] is a [gmap string value];
    - a Go function that may panic returns an [outcome];
    - code that touches the shared plan cache, the clock or the provider
      runs in the monad [M], which threads a [World];
    - the [for { select ... }] loop of [Cluster.query] is a fixpoint on a
      number of iterations; [None] means the loop has not returned yet;
    - tracing spans and debug logging have no effect on any returned
      value and are left out. *)

From stdpp Require Import gmap strings list fin_maps pretty.
From Stdlib Require Import ZArith Lia.

Open Scope Z_scope.

(** ** Go values *)

#[local] Set Warnings "-register-all".

(** What an [interface{}] stored in the option map can hold.  [VChan]
    stands for any Go value that [encoding/json] refuses to encode. *)
Inductive value : Type :=
  | VNil
  | VBool (b : bool)
  | VInt (z : Z)
  | VStr (s : string)
  | VArr (l : list value)
  | VChan.

(** The comma-ok type assertion [v.(string)] on a map lookup. *)
Definition assertString (v : option value) : string * bool :=
  match v with
  | Some (VStr s) => (s, true)
  | _ => (EmptyString, false)
  end.

Fixpoint jsonSupported (v : value) : bool :=
  match v with
  | VChan => false
  | VArr l => forallb jsonSupported l
  | _ => true
  end.

(** A slice stored into an [interface{}]: a nil slice stays a (typed)
    nil and is encoded as JSON null. *)
Definition sliceValue (s : option (list value)) : value :=
  match s with
  | Some l => VArr l
  | None => VNil
  end.

(** Result of a Go call that may panic. *)
Inductive outcome (A : Type) : Type :=
  | Ret (a : A)
  | Panic (msg : string).
Arguments Ret {A} a.
Arguments Panic {A} msg.

(** ** Errors *)

Record n1qlError := { Code : N; Message : string }.

(** [fmt.Sprintf("[%d] %s", e.Code, e.Message)] *)
Definition n1qlError_Error (e : n1qlError) : string :=
  "[" +:+ pretty (Code e) +:+ "] " +:+ Message e.

(** The error values that flow through [query.go].  [MultiError] is
    [*n1qlMultiError]; the others come from the libraries the file calls:
    [ctx.Err()] of an expired context, the provider, [encoding/json] and
    [time.ParseDuration]. *)
Inductive error : Type :=
  | MultiError (errs : list n1qlError)
  | DeadlineExceeded
  | ProviderError (msg : string)
  | JsonError (msg : string)
  | DurationError (s : string).

(** Element 0 of the error slice: indexing an empty slice panics. *)
Definition firstError (e : list n1qlError) : outcome n1qlError :=
  match e with
  | e0 :: _ => Ret e0
  | [] => Panic "index out of range"
  end.

Definition n1qlMultiError_Error (e : list n1qlError) : outcome string :=
  match firstError e with
  | Ret e0 => Ret (n1qlError_Error e0)
  | Panic m => Panic m
  end.

Definition n1qlMultiError_Code (e : list n1qlError) : outcome N :=
  match firstError e with
  | Ret e0 => Ret (Code e0)
  | Panic m => Panic m
  end.

(** ** Wire response *)

Module Wire.

Record n1qlResponseMetrics := {
  ElapsedTime : string;
  ExecutionTime : string;
  ResultCount : N;
  ResultSize : N;
  MutationCount : N;
  SortCount : N;
  ErrorCount : N;
  WarningCount : N }.

Record n1qlResponse := {
  RequestId : string;
  ClientContextId : string;
  Results : list string;
  Errors : list n1qlError;
  Status : string;
  Metrics : n1qlResponseMetrics }.

End Wire.

(** ** Result cursor *)

Record QueryResultMetrics := {
  ElapsedTime : Z;
  ExecutionTime : Z;
  ResultCount : N;
  ResultSize : N;
  MutationCount : N;
  SortCount : N;
  ErrorCount : N;
  WarningCount : N }.

(** A [json.RawMessage] row.  Rows decoded by [encoding/json] are never
    nil, so the nil row that [NextBytes] returns at the end of the
    sequence is [None]. *)
Definition RawMessage := string.

Record n1qlResults := {
  closed : bool;
  index : Z;
  rows : list RawMessage;
  err : option error;
  requestId : string;
  clientContextId : string;
  metrics : QueryResultMetrics;
  sourceAddr : string }.

Definition setClosed (r : n1qlResults) (b : bool) : n1qlResults :=
  {| closed := b; index := index r; rows := rows r; err := err r;
     requestId := requestId r; clientContextId := clientContextId r;
     metrics := metrics r; sourceAddr := sourceAddr r |}.

Definition setIndex (r : n1qlResults) (i : Z) : n1qlResults :=
  {| closed := closed r; index := i; rows := rows r; err := err r;
     requestId := requestId r; clientContextId := clientContextId r;
     metrics := metrics r; sourceAddr := sourceAddr r |}.

Definition setErr (r : n1qlResults) (e : option error) : n1qlResults :=
  {| closed := closed r; index := index r; rows := rows r; err := e;
     requestId := requestId r; clientContextId := clientContextId r;
     metrics := metrics r; sourceAddr := sourceAddr r |}.

(** [r.rows[r.index]]: a negative or too large index panics. *)
Definition rowAt (l : list RawMessage) (i : Z) : outcome RawMessage :=
  if i <? 0 then Panic "index out of range"
  else match l !! Z.to_nat i with
       | Some row => Ret row
       | None => Panic "index out of range"
       end.

Definition NextBytes (r : n1qlResults) : outcome (option RawMessage) * n1qlResults :=
  match err r with
  | Some _ => (Ret None, r)
  | None =>
      if index r + 1 >=? Z.of_nat (length (rows r)) then
        (Ret None, setClosed r true)
      else
        let r1 := setIndex r (index r + 1) in
        match rowAt (rows r1) (index r1) with
        | Ret row => (Ret (Some row), r1)
        | Panic m => (Panic m, r1)
        end
  end.

Definition Close (r : n1qlResults) : option error * n1qlResults :=
  (err r, setClosed r true).

Definition metaPanic : string := "Result must be closed before accessing meta-data".

Definition SourceEndpoint (r : n1qlResults) : string := sourceAddr r.

Definition RequestId (r : n1qlResults) : outcome string :=
  if negb (closed r) then Panic metaPanic else Ret (requestId r).

Definition ClientContextId (r : n1qlResults) : outcome string :=
  if negb (closed r) then Panic metaPanic else Ret (clientContextId r).

Definition Metrics (r : n1qlResults) : outcome QueryResultMetrics :=
  if negb (closed r) then Panic metaPanic else Ret (metrics r).

(** [Next] and [One] decode into the value behind [valuePtr].  The
    decoder [json.Unmarshal] for the target's type is a parameter: it
    returns the (possibly partly written) target and the error. *)
Section Decoding.

Context {T : Type}.
Variable Unmarshal : RawMessage -> T -> T * option error.

Definition Next (r : n1qlResults) (v : T) : outcome bool * n1qlResults * T :=
  match err r with
  | Some _ => (Ret false, r, v)
  | None =>
      match NextBytes r with
      | (Panic m, r1) => (Panic m, r1, v)
      | (Ret None, r1) => (Ret false, r1, v)
      | (Ret (Some row), r1) =>
          let '(v1, e) := Unmarshal row v in
          let r2 := setErr r1 e in
          match e with
          | Some _ => (Ret false, r2, v1)
          | None => (Ret true, r2, v1)
          end
      end
  end.

Definition One (r : n1qlResults) (v : T) : outcome (option error) * n1qlResults * T :=
  match Next r v with
  | (Panic m, r1, v1) => (Panic m, r1, v1)
  | (Ret false, r1, v1) =>
      let '(e, r2) := Close r1 in
      match e with
      | Some e1 => (Ret (Some e1), r2, v1)
      | None =>
          (* ErrNoResults is commented out: fall through *)
          let '(_, r3) := Close r2 in
          (Ret None, r3, v1)
      end
  | (Ret true, r1, v1) =>
      let '(_, r2) := Close r1 in
      (Ret None, r2, v1)
  end.

End Decoding.


(** ** Request parameters and options *)

(** Modelled from the spec: the declaration of [QueryParameters] is not
    in [query.go]; the spec's QueryRequest has positional parameters (an
    ordered sequence) and named parameters (a mapping), and
    [createQueryOpts] reads the fields [positionalParams] and
    [namedParams].  [None] is Go's nil slice or nil map. *)
Module Params.
Record QueryParameters := {
  positionalParams : option (list value);
  namedParams : option (gmap string value) }.
Definition zero : QueryParameters :=
  {| positionalParams := None; namedParams := None |}.
End Params.

(** Go's [context.Context], reduced to what the retry loop observes: the
    deadline, on the clock of [World]. *)
Record Context := { deadline : option Z }.

Definition Background : Context := {| deadline := None |}.

(** Modelled from the spec: the declaration of [QueryOptions] is not in
    [query.go] either; the fields are those the file reads: the
    free-form [options], [positionalParams] and [namedParams], the
    caller's [ctx] and the [adHoc] flag ([parentSpanContext] only feeds
    tracing). *)
Module Opts.
Record QueryOptions := {
  options : gmap string value;
  positionalParams : option (list value);
  namedParams : option (gmap string value);
  ctx : option Context;
  adHoc : bool }.
Definition zero : QueryOptions :=
  {| options := ∅; positionalParams := None; namedParams := None;
     ctx := None; adHoc := false |}.
End Opts.

Definition createQueryOpts (statement : string) (params : Params.QueryParameters)
    (opts : Opts.QueryOptions) : gmap string value * option error :=
  let execOpts : gmap string value := {[ "statement" := VStr statement ]} in
  let execOpts := map_fold (fun k v acc => <[k := v]> acc) execOpts (Opts.options opts) in
  let execOpts :=
    match Params.positionalParams params with
    | Some _ => <["args" := sliceValue (Opts.positionalParams opts)]> execOpts
    | None =>
        match Params.namedParams params with
        | Some _ =>
            map_fold (fun key v acc => <["$" +:+ key := v]> acc) execOpts
                     (default ∅ (Opts.namedParams opts))
        | None => execOpts
        end
    end in
  (execOpts, None).

(** ** Context, provider and the shared state *)

(** [context.WithTimeout(parent, timeout)] at time [t]: the child's
    deadline is the earlier of the parent's and [t + timeout]. *)
Definition WithTimeout (parent : Context) (timeout : Z) (t : Z) : Context :=
  {| deadline := Some (match deadline parent with
                       | Some d => Z.min d (t + timeout)
                       | None => t + timeout
                       end) |}.

(** Whether the receive on [ctx.Done()] is ready at time [t]. *)
Definition ctxDone (c : Context) (t : Z) : bool :=
  match deadline c with
  | Some d => d <=? t
  | None => false
  end.

Inductive ServiceType := N1qlService.

Record HttpRequest := {
  Service : ServiceType;
  Path : string;
  Method : string;
  ReqContext : Context;
  Body : gmap string value }.

(** A [gocbcore.HttpResponse]; [Decoded] is what [json.NewDecoder(
    resp.Body).Decode] makes of the body stream. *)
Record HttpResponse := {
  StatusCode : Z;
  Endpoint : string;
  Decoded : error + Wire.n1qlResponse }.

Record ProviderReply := {
  took : Z;
  reply : error + HttpResponse }.

(** The external query provider: its answer may depend on the time and
    on the requests it has already served. *)
Record queryProvider := {
  DoHttpRequest : Z -> list HttpRequest -> HttpRequest -> ProviderReply }.

Record n1qlCache := { name : string; encodedPlan : string }.

Record n1qlPrepData := { EncodedPlan : string; Name : string }.

Definition zeroPrepData : n1qlPrepData :=
  {| EncodedPlan := EmptyString; Name := EmptyString |}.

(** Modelled from the spec: the retry policy's interface is declared
    outside [query.go]; the spec gives it as can-retry(attempt: uint) ->
    bool and next-interval(attempt: uint) -> duration, and the loop calls
    [CanRetry(retries)] and [NextInterval(retries)]. *)
Record RetryBehavior := {
  CanRetry : N -> bool;
  NextInterval : N -> Z }.

(** Modelled from the spec: [Cluster] is declared outside [query.go];
    these are the members that [query] reads, the client-wide default
    timeout [c.n1qlTimeout()] and the injected policy
    [c.sb.N1qlRetryBehavior] (nil when none is injected).  The plan
    cache [c.queryCache], which is also written, lives in [World]. *)
Record Cluster := {
  n1qlTimeout : Z;
  N1qlRetryBehavior : option RetryBehavior }.

(** Everything one call can change: the clock, [c.queryCache] and the
    requests handed to the provider, oldest first. *)
Record World := {
  now : Z;
  queryCache : gmap string n1qlCache;
  sent : list HttpRequest }.

Definition M (A : Type) : Type := World -> outcome A * World.

Definition ret {A} (a : A) : M A := fun w => (Ret a, w).

Definition panic {A} (msg : string) : M A := fun w => (Panic msg, w).

Definition bind {A B} (m : M A) (k : A -> M B) : M B :=
  fun w =>
    match m w with
    | (Ret a, w1) => k a w1
    | (Panic msg, w1) => (Panic msg, w1)
    end.

Notation "'let*' x ':=' m 'in' k" := (bind m (fun x => k))
  (at level 10, x pattern, m at level 100, k at level 200).

Definition getNow : M Z := fun w => (Ret (now w), w).

(** [time.Sleep(d)]: returns at once when [d] is not positive. *)
Definition Sleep (d : Z) : M unit :=
  fun w => (Ret tt, {| now := now w + Z.max 0 d; queryCache := queryCache w; sent := sent w |}).

(** [c.queryCache[stmt]] under the read lock. *)
Definition lookupCache (stmt : string) : M (option n1qlCache) :=
  fun w => (Ret (queryCache w !! stmt), w).

(** [c.queryCache[stmt] = plan] under the write lock. *)
Definition storeCache (stmt : string) (plan : n1qlCache) : M unit :=
  fun w => (Ret tt, {| now := now w; queryCache := <[stmt := plan]> (queryCache w); sent := sent w |}).

(** [provider.DoHttpRequest(req)]: the request is recorded and the clock
    moves by the time the round trip took. *)
Definition doHttp (p : queryProvider) (req : HttpRequest) : M (error + HttpResponse) :=
  fun w =>
    let rep := DoHttpRequest p (now w) (sent w) req in
    (Ret (reply rep),
     {| now := now w + Z.max 0 (took rep); queryCache := queryCache w;
        sent := sent w ++ [req] |}).

(** [json.Marshal(opts)]: the body is the option map itself. *)
Definition jsonMarshal (opts : gmap string value) : error + gmap string value :=
  if forallb (fun kv => jsonSupported (snd kv)) (map_to_list opts)
  then inr opts
  else inl (JsonError "unsupported type").

(** The single-value assertion [opts[k].(string)], which panics when the
    entry is absent or not a string. *)
Definition mustString (v : option value) : outcome string :=
  match v with
  | Some (VStr s) => Ret s
  | _ => Panic "interface conversion: interface {} is not string"
  end.

(** The request descriptor that [executeN1qlQuery] builds. *)
Definition queryRequest (ctx : Context) (reqJSON : gmap string value) : HttpRequest :=
  {| Service := N1qlService; Path := "/query/service"; Method := "POST";
     ReqContext := ctx; Body := reqJSON |}.

(** The [if resp.StatusCode != 200] block of [executeN1qlQuery]: its
    body is commented out, so neither branch yields an error. *)
Definition statusError (code : Z) : option error :=
  if negb (code =? 200) then None else None.

(** ** The query path *)

Section QueryPath.

(** Library and repository functions whose code is not in [query.go]:
    [time.ParseDuration] ([None] is a parse error, with which Go returns
    the duration 0), [time.Duration.String], the host of
    [url.Parse(endpoint)], the repository's [isRetryableError], and
    [json.Unmarshal] into an [n1qlPrepData]. *)
Variable ParseDuration : string -> option Z.
Variable DurationString : Z -> string.
Variable urlParseHost : string -> option string.
Variable isRetryableError : error -> bool.
Variable UnmarshalPrep : RawMessage -> n1qlPrepData -> n1qlPrepData * option error.

(** The cursor built at the end of [executeN1qlQuery]. *)
Definition newResults (endpoint : string) (n1qlResp : Wire.n1qlResponse) : n1qlResults :=
  let elapsedTime := default 0 (ParseDuration (Wire.ElapsedTime (Wire.Metrics n1qlResp))) in
  let executionTime := default 0 (ParseDuration (Wire.ExecutionTime (Wire.Metrics n1qlResp))) in
  let host := default EmptyString (urlParseHost endpoint) in
  {| sourceAddr := host;
     requestId := Wire.RequestId n1qlResp;
     clientContextId := Wire.ClientContextId n1qlResp;
     index := -1;
     rows := Wire.Results n1qlResp;
     metrics :=
       {| ElapsedTime := elapsedTime;
          ExecutionTime := executionTime;
          ResultCount := Wire.ResultCount (Wire.Metrics n1qlResp);
          ResultSize := Wire.ResultSize (Wire.Metrics n1qlResp);
          MutationCount := Wire.MutationCount (Wire.Metrics n1qlResp);
          SortCount := Wire.SortCount (Wire.Metrics n1qlResp);
          ErrorCount := Wire.ErrorCount (Wire.Metrics n1qlResp);
          WarningCount := Wire.WarningCount (Wire.Metrics n1qlResp) |};
     closed := false;
     err := None |}.

(** What [executeN1qlQuery] does with a response of the provider. *)
Definition readResponse (resp : HttpResponse) : error + n1qlResults :=
  match Decoded resp with
  | inl e => inl e
  | inr n1qlResp =>
      if (0 <? length (Wire.Errors n1qlResp))%nat then
        inl (MultiError (Wire.Errors n1qlResp))
      else
        match statusError (StatusCode resp) with
        | Some e => inl e
        | None => inr (newResults (Endpoint resp) n1qlResp)
        end
  end.

(** Every error return of the Go functions below pairs the error with a
    nil cursor, so their results are a sum. *)
Definition executeN1qlQuery (ctx : Context) (opts : gmap string value)
    (provider : queryProvider) : M (error + n1qlResults) :=
  match jsonMarshal opts with
  | inl e => ret (inl e)
  | inr reqJSON =>
      let req := queryRequest ctx reqJSON in
      let* resp := doHttp provider req in
      match resp with
      | inl e => ret (inl e)
      | inr resp => ret (readResponse resp)
      end
  end.

Definition prepareN1qlQuery (ctx : Context) (opts : gmap string value)
    (provider : queryProvider) : M (error + n1qlCache) :=
  match mustString (opts !! "statement") with
  | Panic m => panic m
  | Ret stmt =>
      let prepOpts := <["statement" := VStr ("PREPARE " +:+ stmt)]> opts in
      (* the request is built from [opts], not from [prepOpts] *)
      let* prepRes := executeN1qlQuery ctx opts provider in
      match prepRes with
      | inl e => ret (inl e)
      | inr prepRes =>
          match One UnmarshalPrep prepRes zeroPrepData with
          | (Panic m, _, _) => panic m
          | (Ret (Some e), _, _) => ret (inl e)
          | (Ret None, _, preped) =>
              ret (inr {| name := Name preped; encodedPlan := EncodedPlan preped |})
          end
      end
  end.

(** Replacing the raw statement by the cached plan in the option map. *)
Definition usePlan (queryOpts : gmap string value) (plan : n1qlCache) : gmap string value :=
  <["encoded_plan" := VStr (encodedPlan plan)]>
    (<["prepared" := VStr (name plan)]> (delete "statement" queryOpts)).

(** The second half of [doPreparedN1qlQuery], from the comment
    "Prepare the query" on. *)
Definition prepareAndExecute (ctx : Context) (stmtStr : string)
    (queryOpts : gmap string value) (provider : queryProvider)
    : M (gmap string value * (error + n1qlResults)) :=
  let* prepared := prepareN1qlQuery ctx queryOpts provider in
  match prepared with
  | inl e => ret (queryOpts, inl e)
  | inr cachedStmt =>
      let* _ := storeCache stmtStr cachedStmt in
      let queryOpts := usePlan queryOpts cachedStmt in
      let* res := executeN1qlQuery ctx queryOpts provider in
      ret (queryOpts, res)
  end.

(** [queryOpts] is a Go map, shared with the caller: the function also
    returns the map as it leaves it. *)
Definition doPreparedN1qlQuery (ctx : Context) (queryOpts : gmap string value)
    (provider : queryProvider) : M (gmap string value * (error + n1qlResults)) :=
  let '(stmtStr, isStr) := assertString (queryOpts !! "statement") in
  let* cachedStmt := lookupCache stmtStr in
  match cachedStmt with
  | Some cachedStmt =>
      let queryOpts := usePlan queryOpts cachedStmt in
      let* res := executeN1qlQuery ctx queryOpts provider in
      match res with
      | inr results => ret (queryOpts, inr results)
      | inl e =>
          if negb (isRetryableError e) then ret (queryOpts, inl e)
          else prepareAndExecute ctx stmtStr queryOpts provider
      end
  | None => prepareAndExecute ctx stmtStr queryOpts provider
  end.

(** Lines 240-254 of [Cluster.query]: the timeout to use and the option
    map with that timeout written back. *)
Definition reconcileTimeout (c : Cluster) (queryOpts : gmap string value)
    : error + (Z * gmap string value) :=
  let timeout := n1qlTimeout c in
  let '(tmostr, castok) := assertString (queryOpts !! "timeout") in
  match (if castok then ParseDuration tmostr else Some 0) with
  | None => inl (DurationError tmostr)
  | Some optTimeout =>
      let timeout :=
        if (0 <? optTimeout) && (optTimeout <? timeout) then optTimeout else timeout in
      inr (timeout, <["timeout" := VStr (DurationString timeout)]> queryOpts)
  end.

(** One unit of work of the retry loop. *)
Definition unitOfWork (adHoc : bool) (ctx : Context) (provider : queryProvider)
    (queryOpts : gmap string value) : M (gmap string value * (error + n1qlResults)) :=
  if adHoc then
    let* res := executeN1qlQuery ctx queryOpts provider in
    ret (queryOpts, res)
  else doPreparedN1qlQuery ctx queryOpts provider.

(** [retries++] on a 64-bit [uint]. *)
Definition incr (retries : N) : N := ((retries + 1) mod 2 ^ 64)%N.

(** The [for { select ... }] loop of [Cluster.query], run for at most
    [fuel] iterations.  The result carries the value of [retries] and
    what the loop returned, [None] when it has not returned yet.  In the
    [ctx.Done()] case the Go code assigns [err = ctx.Err()] and leaves
    the [select]: there is no [return], so the loop goes round again. *)
Fixpoint queryLoop (fuel : nat) (c : Cluster) (ctx : Context)
    (work : gmap string value -> M (gmap string value * (error + n1qlResults)))
    (retries : N) (queryOpts : gmap string value)
    : M (N * option (error + n1qlResults)) :=
  match fuel with
  | O => ret (retries, None)
  | S fuel' =>
      let* t := getNow in
      if ctxDone ctx t then
        queryLoop fuel' c ctx work retries queryOpts
      else
        let retries := incr retries in
        let* (queryOpts, res) := work queryOpts in
        match res with
        | inr r => ret (retries, Some (inr r))
        | inl e =>
            match N1qlRetryBehavior c with
            | Some rb =>
                if negb (isRetryableError e) || negb (CanRetry rb retries) then
                  ret (retries, Some (inl e))
                else
                  let* _ := Sleep (NextInterval rb retries) in
                  queryLoop fuel' c ctx work retries queryOpts
            | None => ret (retries, Some (inl e))
            end
        end
  end.

Definition query (fuel : nat) (c : Cluster) (ctx : Context) (statement : string)
    (params : Params.QueryParameters) (opts : Opts.QueryOptions)
    (provider : queryProvider) : M (N * option (error + n1qlResults)) :=
  match createQueryOpts statement params opts with
  | (_, Some e) => ret (0%N, Some (inl e))
  | (queryOpts, None) =>
      match reconcileTimeout c queryOpts with
      | inl e => ret (0%N, Some (inl e))
      | inr (timeout, queryOpts) =>
          let* t := getNow in
          let ctx := WithTimeout ctx timeout t in
          queryLoop fuel c ctx (unitOfWork (Opts.adHoc opts) ctx provider) 0%N queryOpts
      end
  end.

(** [Cluster.Query]: nil options, parameters and context get their
    defaults; [provider] is the result of [c.getQueryProvider()]. *)
Definition Query (fuel : nat) (c : Cluster) (statement : string)
    (params : option Params.QueryParameters) (opts : option Opts.QueryOptions)
    (provider : error + queryProvider) : M (N * option (error + n1qlResults)) :=
  let opts := default Opts.zero opts in
  let params := default Params.zero params in
  let ctx := default Background (Opts.ctx opts) in
  match provider with
  | inl e => ret (0%N, Some (inl e))
  | inr provider => query fuel c ctx statement params opts provider
  end.

End QueryPath.

(** ** Iterating a cursor *)

(** The loop [for r.Next(&v) { ... }], collecting the value of the
    target after each successful call; [n] bounds the number of calls. *)
Fixpoint nextAll {T : Type} (Unmarshal : RawMessage -> T -> T * option error)
    (n : nat) (r : n1qlResults) (v : T) : outcome (list T) * n1qlResults * T :=
  match n with
  | O => (Ret [], r, v)
  | S n' =>
      match Next Unmarshal r v with
      | (Panic m, r1, v1) => (Panic m, r1, v1)
      | (Ret false, r1, v1) => (Ret [], r1, v1)
      | (Ret true, r1, v1) =>
          match nextAll Unmarshal n' r1 v1 with
          | (Ret l, r2, v2) => (Ret (v1 :: l), r2, v2)
          | (Panic m, r2, v2) => (Panic m, r2, v2)
          end
      end
  end.

(** ** The retry loop of the search path *)

(** The [for { select ... }] loop of [searchQuery], over the unit of
    work [executeSearchQuery] and the policy [c.sb.SearchRetryBehavior].
    Unlike the loop of [query], the [ctx.Done()] case returns
    [ctx.Err()]. *)
Fixpoint searchLoop {R : Type} (isRetryableError : error -> bool) (fuel : nat)
    (policy : option RetryBehavior) (ctx : Context) (work : M (error + R))
    (retries : N) : M (N * option (error + R)) :=
  match fuel with
  | O => ret (retries, None)
  | S fuel' =>
      let* t := getNow in
      if ctxDone ctx t then
        ret (retries, Some (inl DeadlineExceeded))
      else
        let retries := incr retries in
        let* res := work in
        match res with
        | inr r => ret (retries, Some (inr r))
        | inl e =>
            match policy with
            | Some rb =>
                if negb (isRetryableError e) || negb (CanRetry rb retries) then
                  ret (retries, Some (inl e))
                else
                  let* _ := Sleep (NextInterval rb retries) in
                  searchLoop isRetryableError fuel' policy ctx work retries
            | None => ret (retries, Some (inl e))
            end
        end
  end.

(** ** State blocks ([stateblock.go]) *)

Record clientStateBlock := {
  BucketName : string;
  UseMutationTokens : bool }.

(** [fmt.Sprintf("%s-%b", sb.BucketName, sb.UseMutationTokens)];
    [fmtB] is what [fmt] prints for a bool under the verb [%b]. *)
Definition clientStateBlock_Hash (fmtB : bool -> string) (sb : clientStateBlock) : string :=
  BucketName sb +:+ "-" +:+ fmtB (UseMutationTokens sb).

(** The fields of [stateBlock] that its methods read; [client] is the
    repository's client type, of which only [Hash()] is used, and
    [cachedClient] is a pointer that may be nil. *)
Record stateBlock (client : Type) := {
  cachedClient : option client;
  clientBlock : clientStateBlock;
  ScopeName : string;
  CollectionName : string;
  KvTimeout : Z;
  PersistTo : N;
  ReplicateTo : N }.
Arguments cachedClient {client} _.
Arguments clientBlock {client} _.
Arguments ScopeName {client} _.
Arguments CollectionName {client} _.
Arguments KvTimeout {client} _.
Arguments PersistTo {client} _.
Arguments ReplicateTo {client} _.

Definition stateBlock_getClient {client : Type} (sb : stateBlock client) : outcome client :=
  match cachedClient sb with
  | None => Panic "attempted to fetch client from incomplete state block"
  | Some c => Ret c
  end.

(** [clientHash] is the client's [Hash()] and [clusterGetClient] is
    [sb.cluster.getClient], which may return nil. *)
Definition recacheClient {client : Type} (fmtB : bool -> string)
    (clientHash : client -> string)
    (clusterGetClient : clientStateBlock -> option client)
    (sb : stateBlock client) : stateBlock client :=
  match cachedClient sb with
  | Some c =>
      if String.eqb (clientHash c) (clientStateBlock_Hash fmtB (clientBlock sb)) then sb
      else
        {| cachedClient := clusterGetClient (clientBlock sb);
           clientBlock := clientBlock sb; ScopeName := ScopeName sb;
           CollectionName := CollectionName sb; KvTimeout := KvTimeout sb;
           PersistTo := PersistTo sb; ReplicateTo := ReplicateTo sb |}
  | None =>
      {| cachedClient := clusterGetClient (clientBlock sb);
         clientBlock := clientBlock sb; ScopeName := ScopeName sb;
         CollectionName := CollectionName sb; KvTimeout := KvTimeout sb;
         PersistTo := PersistTo sb; ReplicateTo := ReplicateTo sb |}
  end.

(** ** Sample platform

    Concrete stand-ins for the parameters of [QueryPath], used to run
    the model on examples.  They agree with the Go functions on the
    inputs listed. *)
Module Sample.

Definition durations : list (string * Z) :=
  [("2ms", 2000000); ("200ms", 200000000); ("1s", 1000000000);
   ("1m15s", 75000000000); ("75s", 75000000000); ("0s", 0); ("-5s", -5000000000)].

Definition ParseDuration (s : string) : option Z :=
  match list_find (fun p => String.eqb (fst p) s) durations with
  | Some (_, (_, d)) => Some d
  | None => None
  end.

Definition DurationString (d : Z) : string :=
  match list_find (fun p => Z.eqb (snd p) d) durations with
  | Some (_, (s, _)) => s
  | None => pretty d +:+ "ns"
  end.

Definition urlParseHost (s : string) : option string :=
  if String.eqb s "http://10.0.0.1:8093" then Some "10.0.0.1:8093" else None.

(** Retryable codes as named in [doPreparedN1qlQuery]: 4050, 4070, 5000. *)
Definition isRetryableError (e : error) : bool :=
  match e with
  | MultiError (e0 :: _) =>
      bool_decide (Code e0 = 4050%N ∨ Code e0 = 4070%N ∨ Code e0 = 5000%N)
  | _ => false
  end.

(** A decoder that reads a row as the plan's name. *)
Definition UnmarshalPrep (row : RawMessage) (v : n1qlPrepData)
    : n1qlPrepData * option error :=
  if String.eqb row "garbage" then (v, Some (JsonError "invalid character"))
  else ({| EncodedPlan := "enc:" +:+ row; Name := row |}, None).

Definition metrics0 : Wire.n1qlResponseMetrics :=
  {| Wire.ElapsedTime := "2ms"; Wire.ExecutionTime := "bogus";
     Wire.ResultCount := 3; Wire.ResultSize := 30; Wire.MutationCount := 0;
     Wire.SortCount := 0; Wire.ErrorCount := 0; Wire.WarningCount := 0 |}.

Definition response (rows : list string) (errs : list n1qlError) : Wire.n1qlResponse :=
  {| Wire.RequestId := "req-1"; Wire.ClientContextId := "ctx-1";
     Wire.Results := rows; Wire.Errors := errs; Wire.Status := "success";
     Wire.Metrics := metrics0 |}.

Definition cluster (rb : option RetryBehavior) : Cluster :=
  {| n1qlTimeout := 75000000000; N1qlRetryBehavior := rb |}.

Definition world0 : World := {| now := 0; queryCache := ∅; sent := [] |}.

(** A provider that answers its k-th request with the k-th reply of a
    script, and with [last] once the script is used up. *)
Definition scripted (script : list ProviderReply) (last : ProviderReply) : queryProvider :=
  {| DoHttpRequest := fun _ served _ => nth (length served) script last |}.

Definition answers (status : Z) (resp : Wire.n1qlResponse) : ProviderReply :=
  {| took := 1000000;
     reply := inr {| StatusCode := status; Endpoint := "http://10.0.0.1:8093";
                     Decoded := inr resp |} |}.

Definition fails (msg : string) : ProviderReply :=
  {| took := 1000000; reply := inl (ProviderError msg) |}.

(** A classification under which every error is retryable. *)
Definition anyError (e : error) : bool := true.

(** The policy of the retry test: retries after attempts 1 and 2, with
    a fixed back-off of 10ms. *)
Definition twoRetries : RetryBehavior :=
  {| CanRetry := fun n => (n <=? 2)%N; NextInterval := fun _ => 10000000 |}.

(** Ad-hoc execution against a provider that never completes a round
    trip. *)
Definition failingWork (ctx : Context)
    : gmap string value -> M (gmap string value * (error + n1qlResults)) :=
  unitOfWork ParseDuration urlParseHost anyError UnmarshalPrep true ctx
             (scripted [] (fails "connection reset")).

(** A response that reports a retryable server error. *)
Definition overloaded : Wire.n1qlResponse :=
  response [] [ {| Code := 5000; Message := "overloaded" |} ].

(** Options of an ad-hoc call, with a per-call timeout when [tmo] is
    given. *)
Definition adHocOpts (tmo : option string) : Opts.QueryOptions :=
  {| Opts.options := match tmo with
                     | Some s => {[ "timeout" := VStr s ]}
                     | None => ∅
                     end;
     Opts.positionalParams := None; Opts.namedParams := None;
     Opts.ctx := None; Opts.adHoc := true |}.

(** A world whose plan cache holds a plan for "SELECT 1". *)
Definition stalePlan : World :=
  {| now := 0;
     queryCache := {[ "SELECT 1" := {| name := "p1"; encodedPlan := "enc:p1" |} ]};
     sent := [] |}.

(** A reply whose body is not a JSON document. *)
Definition garbled : ProviderReply :=
  {| took := 1000000;
     reply := inr {| StatusCode := 200; Endpoint := "http://10.0.0.1:8093";
                     Decoded := inl (JsonError "unexpected end of JSON input") |} |}.

(** A provider that answers the first request with one row and every
    later one with a retryable server error. *)
Definition prepareThenOverloaded : queryProvider :=
  scripted [answers 200 (response ["p7"] [])] (answers 200 overloaded).

(** A policy that always allows another attempt, without back-off. *)
Definition alwaysRetry : RetryBehavior :=
  {| CanRetry := fun _ => true; NextInterval := fun _ => 0 |}.

(** A unit of work of the search path that fails after 1ms. *)
Definition slowFailure : M (error + unit) :=
  fun w => (Ret (inl (ProviderError "connection reset")),
            {| now := now w + 1000000; queryCache := queryCache w; sent := sent w |}).

(** A response that lists two errors. *)
Definition twoErrors : Wire.n1qlResponse :=
  response [] [ {| Code := 4050; Message := "plan not found" |};
                {| Code := 12003; Message := "keyspace not found" |} ].

(** The cursor over a response of three rows. *)
Definition cursor3 : n1qlResults :=
  newResults ParseDuration urlParseHost "http://10.0.0.1:8093"
             (response ["1"; "2"; "3"] []).

(** What Go's [fmt] prints for a bool under the verb [%b], which is not
    a verb for bools. *)
Definition fmtB (b : bool) : string :=
  if b then "%!b(bool=true)" else "%!b(bool=false)".

(** A state block for bucket [bucket] whose cached client was made for
    another bucket; a client is represented by the block it was made
    for. *)
Definition staleBlock (bucket : string) : stateBlock clientStateBlock :=
  {| cachedClient := Some {| BucketName := "travel-sample"; UseMutationTokens := false |};
     clientBlock := {| BucketName := bucket; UseMutationTokens := false |};
     ScopeName := "_default"; CollectionName := "_default";
     KvTimeout := 2500000000; PersistTo := 0; ReplicateTo := 0 |}.

End Sample.

(** ** Notions used in the statements *)

(** A cursor in the middle of its rows, with no retained error: [k]
    rows are still to come. *)
Definition midway (r : n1qlResults) (k : nat) : Prop :=
  err r = None ∧ -1 <= index r ∧
  index r + 1 + Z.of_nat k = Z.of_nat (length (rows r)).

(** The list carried by an aggregate error (the conversion of a
    [*n1qlMultiError] back to its slice). *)
Definition errorList (e : error) : list n1qlError :=
  match e with
  | MultiError l => l
  | _ => []
  end.

(** The per-call override: the duration that the string under
    "timeout" denotes, if there is such a string. *)
Definition override (ParseDuration : string -> option Z)
    (queryOpts : gmap string value) : option Z :=
  match queryOpts !! "timeout" with
  | Some (VStr s) => ParseDuration s
  | _ => None
  end.

(** The effective timeout in the spec's words: the override when it is
    present, greater than zero and no larger than the client default,
    the client default otherwise. *)
Definition specTimeout (clientDefault : Z) (o : option Z) : Z :=
  match o with
  | Some d => if (0 <? d) && (d <=? clientDefault) then d else clientDefault
  | None => clientDefault
  end.

(** The world after [time.Sleep(d)]. *)
Definition afterSleep (d : Z) (w : World) : World := snd (Sleep d w).

(** [query] on the sample platform. *)
Abbreviation sampleQuery :=
  (query Sample.ParseDuration Sample.DurationString Sample.urlParseHost
         Sample.isRetryableError Sample.UnmarshalPrep).

(** [sending Q R m]: every request that [m] hands to the provider
    satisfies [Q], and a value that [m] returns satisfies [R]. *)
Definition sending {A} (Q : HttpRequest → Prop) (R : A → Prop) (m : M A) : Prop :=
  ∀ w, ∃ l, sent (snd (m w)) = sent w ++ l ∧ Forall Q l ∧
            ∀ a, fst (m w) = Ret a → R a.

(** A request or an option map that carries [v] under "timeout". *)
Definition carries (v : value) (req : HttpRequest) : Prop :=
  Body req !! "timeout" = Some v.

(** What decoding the rows one after the other into the same target
    gives: the targets after each row that decoded, the target at the
    end, and the error of the first row that did not decode. *)
Fixpoint decodeRows {T : Type} (Unmarshal : RawMessage -> T -> T * option error)
    (l : list RawMessage) (v : T) : list T * T * option error :=
  match l with
  | [] => ([], v, None)
  | row :: rest =>
      match Unmarshal row v with
      | (v1, Some e) => ([], v1, Some e)
      | (v1, None) =>
          match decodeRows Unmarshal rest v1 with
          | (vs, v2, e) => (v1 :: vs, v2, e)
          end
      end
  end.

(** The index of a cursor is that of a row, or -1 before the first
    (which is also in range when there are no rows). *)
Definition inRange (r : n1qlResults) : Prop :=
  -1 <= index r < Z.of_nat (length (rows r)).

(** The plan that [prepareN1qlQuery] makes of the decoded first row. *)
Definition planOf (preped : n1qlPrepData) : n1qlCache :=
  {| name := Name preped; encodedPlan := EncodedPlan preped |}.

(** [keeps Rel m]: the world that [m] leaves is related by [Rel] to the
    world it started in, whether [m] returns or panics. *)
Definition keeps {A} (Rel : World → World → Prop) (m : M A) : Prop :=
  ∀ w, Rel w (snd (m w)).

(** Every statement that has a plan in the first cache has one in the
    second. *)
Definition cacheGrows (w w' : World) : Prop :=
  ∀ s, is_Some (queryCache w !! s) → is_Some (queryCache w' !! s).

(** The plan cache is the same in both worlds. *)
Definition sameCache (w w' : World) : Prop := queryCache w' = queryCache w.

(** A request as [executeN1qlQuery] builds it, for the context [ctx]. *)
Definition builtFor (ctx : Context) (req : HttpRequest) : Prop :=
  Service req = N1qlService ∧ Path req = "/query/service" ∧ Method req = "POST" ∧
  ReqContext req = ctx.

(** What the statement and the free-form options alone put under the
    key [k]: the option of that name if there is one, and otherwise the
    statement under "statement". *)
Definition freeForm (statement : string) (opts : Opts.QueryOptions) (k : string)
    : option value :=
  match Opts.options opts !! k with
  | Some v => Some v
  | None => if decide (k = "statement") then Some (VStr statement) else None
  end.

(** * Properties *)

(** ** The result cursor *)

Lemma closed_setClosed r b : closed (setClosed r b) = b.
Proof. reflexivity. Qed.

Lemma NextBytes_end r :
  midway r 0 → NextBytes r = (Ret None, setClosed r true).
Proof.
  intros (He & _ & Hk). unfold NextBytes. rewrite He.
  destruct (Z.geb_spec (index r + 1) (Z.of_nat (length (rows r)))); [done | lia].
Qed.

Lemma NextBytes_row r k :
  midway r (S k) →
  ∃ row, rows r !! Z.to_nat (index r + 1) = Some row ∧
         NextBytes r = (Ret (Some row), setIndex r (index r + 1)) ∧
         midway (setIndex r (index r + 1)) k.
Proof.
  intros (He & Hi & Hk).
  destruct (lookup_lt_is_Some_2 (rows r) (Z.to_nat (index r + 1))) as [row Hrow]; [lia |].
  exists row. split; [exact Hrow |]. split.
  - unfold NextBytes. rewrite He.
    destruct (Z.geb_spec (index r + 1) (Z.of_nat (length (rows r)))); [lia |].
    unfold rowAt. cbn [rows index setIndex].
    destruct (Z.ltb_spec (index r + 1) 0); [lia |]. by rewrite Hrow.
  - repeat split; cbn; [done | lia | lia].
Qed.


Section CursorFacts.

Variable ParseDuration : string -> option Z.
Variable urlParseHost : string -> option string.

Lemma newResults_midway endpoint resp :
  midway (newResults ParseDuration urlParseHost endpoint resp)
         (length (Wire.Results resp)).
Proof. repeat split; cbn; lia. Qed.

End CursorFacts.

Section OneFacts.

Context {T : Type}.
Variable Unmarshal : RawMessage -> T -> T * option error.
Variable ParseDuration : string -> option Z.
Variable urlParseHost : string -> option string.



End OneFacts.


(** ** The dispatcher *)

Section DispatcherFacts.

Variable ParseDuration : string -> option Z.
Variable urlParseHost : string -> option string.

Lemma executeN1qlQuery_reply ctx opts provider w resp :
  jsonMarshal opts = inr opts →
  reply (DoHttpRequest provider (now w) (sent w) (queryRequest ctx opts)) = inr resp →
  executeN1qlQuery ParseDuration urlParseHost ctx opts provider w
  = (Ret (readResponse ParseDuration urlParseHost resp),
     {| now := now w + Z.max 0 (took (DoHttpRequest provider (now w) (sent w)
                                        (queryRequest ctx opts)));
        queryCache := queryCache w;
        sent := sent w ++ [queryRequest ctx opts] |}).
Proof.
  intros Hm Hr. unfold executeN1qlQuery. rewrite Hm.
  unfold bind, doHttp. rewrite Hr. reflexivity.
Qed.

Lemma jsonMarshal_inr opts body : jsonMarshal opts = inr body → body = opts.
Proof. unfold jsonMarshal. destruct (forallb _ _); congruence. Qed.

(** The status code plays no part in what is made of a decoded response
    without errors. *)
Lemma readResponse_ignores_status resp n1qlResp :
  Decoded resp = inr n1qlResp → Wire.Errors n1qlResp = [] →
  readResponse ParseDuration urlParseHost resp
  = inr (newResults ParseDuration urlParseHost (Endpoint resp) n1qlResp).
Proof.
  intros Hd He. unfold readResponse. rewrite Hd, He. cbn.
  unfold statusError. by destruct (negb _).
Qed.

(** C8. When the provider's response decodes to a response whose error
    list is not empty, whatever the status code, [executeN1qlQuery]
    returns no cursor but one error; the error's code is the first
    listed error's code, its message is that error's message (prefixed
    by the code in brackets), and the whole list can be read back from
    the error value. *)
Theorem error_list_becomes_aggregate_error (ctx : Context) (opts : gmap string value)
    (provider : queryProvider) (w : World) (resp : HttpResponse)
    (n1qlResp : Wire.n1qlResponse) (e0 : n1qlError) (rest : list n1qlError) :
  jsonMarshal opts = inr opts →
  reply (DoHttpRequest provider (now w) (sent w) (queryRequest ctx opts)) = inr resp →
  Decoded resp = inr n1qlResp →
  Wire.Errors n1qlResp = e0 :: rest →
  ∃ e, fst (executeN1qlQuery ParseDuration urlParseHost ctx opts provider w) = Ret (inl e) ∧
       e = MultiError (Wire.Errors n1qlResp) ∧
       n1qlMultiError_Code (errorList e) = Ret (Code e0) ∧
       n1qlMultiError_Error (errorList e)
         = Ret ("[" +:+ pretty (Code e0) +:+ "] " +:+ Message e0) ∧
       errorList e = e0 :: rest.
Proof.
  intros Hm Hr Hd He.
  rewrite (executeN1qlQuery_reply _ _ _ _ _ Hm Hr). cbn [fst].
  unfold readResponse. rewrite Hd, He. cbn.
  eexists. repeat split.
Qed.

End DispatcherFacts.

Lemma error_list_becomes_aggregate_error_witness :
  ∃ e, fst (executeN1qlQuery Sample.ParseDuration Sample.urlParseHost Background
              {[ "statement" := VStr "SELECT 1" ]}
              (Sample.scripted [] (Sample.answers 200 Sample.twoErrors))
              Sample.world0) = Ret (inl e) ∧
       n1qlMultiError_Code (errorList e) = Ret 4050%N ∧
       n1qlMultiError_Error (errorList e) = Ret "[4050] plan not found" ∧
       length (errorList e) = 2%nat.
Proof.
  destruct (error_list_becomes_aggregate_error Sample.ParseDuration Sample.urlParseHost
              Background {[ "statement" := VStr "SELECT 1" ]}
              (Sample.scripted [] (Sample.answers 200 Sample.twoErrors))
              Sample.world0
              {| StatusCode := 200; Endpoint := "http://10.0.0.1:8093";
                 Decoded := inr Sample.twoErrors |}
              Sample.twoErrors
              {| Code := 4050; Message := "plan not found" |}
              [ {| Code := 12003; Message := "keyspace not found" |} ])
    as (e & Hrun & He & Hcode & Hmsg & Hlist); [reflexivity .. |].
  exists e. split; [exact Hrun |]. split; [exact Hcode |]. split; [exact Hmsg |].
  rewrite Hlist. reflexivity.
Defined.

(** C9. A response with status 500 whose body decodes to a response
    without errors: [executeN1qlQuery] returns a cursor and no error. *)
Theorem status_500_returns_cursor :
  fst (executeN1qlQuery Sample.ParseDuration Sample.urlParseHost Background
         {[ "statement" := VStr "SELECT 1" ]}
         (Sample.scripted [] (Sample.answers 500 (Sample.response ["1"] [])))
         Sample.world0)
  = Ret (inr (newResults Sample.ParseDuration Sample.urlParseHost "http://10.0.0.1:8093"
                (Sample.response ["1"] []))).
Proof. reflexivity. Qed.

(** ** Building the option map *)

(** C6. Positional parameters [1, 2] passed in [params], with options
    that carry none of their own: the map has null under "args", not
    the caller's values.  Named parameters passed in [params] likewise
    leave no "$"-prefixed entry.  The tests read [params], the stored
    values come from [opts]. *)
Theorem args_come_from_options_not_params :
  fst (createQueryOpts "SELECT $1"
         {| Params.positionalParams := Some [VInt 1; VInt 2]; Params.namedParams := None |}
         Opts.zero) !! "args" = Some VNil ∧
  fst (createQueryOpts "SELECT $a"
         {| Params.positionalParams := None;
            Params.namedParams := Some {[ "a" := VInt 1 ]} |}
         Opts.zero) !! "$a" = None ∧
  fst (createQueryOpts "SELECT 1" Params.zero
         {| Opts.options := ∅; Opts.positionalParams := Some [VInt 1; VInt 2];
            Opts.namedParams := None; Opts.ctx := None; Opts.adHoc := false |})
    !! "args" = None.
Proof. repeat split; vm_compute; reflexivity. Qed.

(** What the function does store: under "args" the positional
    parameters of [opts], whenever those of [params] are not nil. *)
Lemma createQueryOpts_args statement params opts l :
  Params.positionalParams params = Some l →
  fst (createQueryOpts statement params opts) !! "args"
  = Some (sliceValue (Opts.positionalParams opts)).
Proof.
  intros Hp. unfold createQueryOpts. rewrite Hp. cbn [fst].
  apply lookup_insert_eq.
Qed.

Lemma fold_named_lookup (m base : gmap string value) k v :
  m !! k = Some v →
  map_fold (fun key v acc => <["$" +:+ key := v]> acc) base m !! ("$" +:+ k) = Some v.
Proof.
  revert k v.
  apply (map_fold_weak_ind
           (fun acc (m : gmap string value) =>
              ∀ k v, m !! k = Some v → acc !! ("$" +:+ k) = Some v)).
  - intros k v Hk. by rewrite lookup_empty in Hk.
  - intros i x m' acc Hi IH k v Hk.
    destruct (decide (i = k)) as [-> | Hne].
    + rewrite lookup_insert_eq in Hk. rewrite lookup_insert_eq. exact Hk.
    + rewrite lookup_insert_ne in Hk by done.
      rewrite lookup_insert_ne; [by apply IH |].
      cbn. intros [= ?]. done.
Qed.

(** And under "$name" the named parameters of [opts], whenever [params]
    has named and no positional parameters. *)
Lemma createQueryOpts_named statement params opts m0 m k v :
  Params.positionalParams params = None →
  Params.namedParams params = Some m0 →
  Opts.namedParams opts = Some m → m !! k = Some v →
  fst (createQueryOpts statement params opts) !! ("$" +:+ k) = Some v.
Proof.
  intros Hp Hn Ho Hk. unfold createQueryOpts. rewrite Hp, Hn, Ho. cbn [fst default].
  by apply fold_named_lookup.
Qed.

(** ** The timeout in effect *)

Section TimeoutFacts.

Variable ParseDuration : string -> option Z.
Variable DurationString : Z -> string.

(** A "timeout" string that does not parse makes the call fail before
    any timeout is in effect. *)
Lemma reconcileTimeout_parse_error c queryOpts s :
  queryOpts !! "timeout" = Some (VStr s) → ParseDuration s = None →
  reconcileTimeout ParseDuration DurationString c queryOpts = inl (DurationError s).
Proof.
  intros Hs Hp. unfold reconcileTimeout. rewrite Hs. cbn. by rewrite Hp.
Qed.

(** When the "timeout" option, if it is a string, parses as a duration,
    the code's choice between override and client default is the
    spec's, and the chosen timeout is stored under "timeout". *)
Lemma reconcileTimeout_ok (c : Cluster) (queryOpts : gmap string value) :
  (∀ s, queryOpts !! "timeout" = Some (VStr s) → is_Some (ParseDuration s)) →
  ∃ queryOpts',
    reconcileTimeout ParseDuration DurationString c queryOpts
    = inr (specTimeout (n1qlTimeout c) (override ParseDuration queryOpts), queryOpts') ∧
    queryOpts' !! "timeout"
    = Some (VStr (DurationString (specTimeout (n1qlTimeout c) (override ParseDuration queryOpts)))) ∧
    (∀ k, k ≠ "timeout" → queryOpts' !! k = queryOpts !! k).
Proof.
  intros Hparse. unfold reconcileTimeout, override, specTimeout.
  destruct (queryOpts !! "timeout") as [[| | | s | |] |] eqn:Hq; cbn.
  4: {
    destruct (Hparse s eq_refl) as [d Hd]. rewrite Hd.
    assert ((if (0 <? d) && (d <? n1qlTimeout c) then d else n1qlTimeout c)
            = (if (0 <? d) && (d <=? n1qlTimeout c) then d else n1qlTimeout c)) as ->.
    { destruct (Z.ltb_spec 0 d), (Z.ltb_spec d (n1qlTimeout c)),
        (Z.leb_spec d (n1qlTimeout c)); cbn; lia. }
    eexists. split; [reflexivity |]. split; [apply lookup_insert_eq |].
    intros k Hk. by apply lookup_insert_ne. }
  all: eexists; (split; [reflexivity |]); (split; [apply lookup_insert_eq |]);
    intros k Hk; by apply lookup_insert_ne.
Qed.

End TimeoutFacts.

(** ** The retry loop *)

Section LoopFacts.

Variable isRetryableError : error -> bool.

Abbreviation loop := (queryLoop isRetryableError).

(** With the context done, an iteration changes nothing and returns
    nothing: however many iterations are run, the loop has not
    returned, [retries] and the world are as they were. *)
Lemma queryLoop_spins fuel c ctx work retries queryOpts w :
  ctxDone ctx (now w) = true →
  loop fuel c ctx work retries queryOpts w = (Ret (retries, None), w).
Proof.
  intros Hdone. induction fuel as [| fuel IH]; [reflexivity |].
  cbn [queryLoop]. unfold bind at 1. cbn [getNow]. rewrite Hdone. exact IH.
Qed.

(** An attempt that fails and is retried. *)
Lemma queryLoop_retry fuel c ctx work retries queryOpts w rb queryOpts' e w' :
  ctxDone ctx (now w) = false →
  work queryOpts w = (Ret (queryOpts', inl e), w') →
  N1qlRetryBehavior c = Some rb →
  isRetryableError e = true →
  CanRetry rb (incr retries) = true →
  loop (S fuel) c ctx work retries queryOpts w
  = loop fuel c ctx work (incr retries) queryOpts'
         (afterSleep (NextInterval rb (incr retries)) w').
Proof.
  intros Hlive Hwork Hrb Hre Hcan.
  cbn [queryLoop]. unfold bind at 1. cbn [getNow]. rewrite Hlive.
  unfold bind at 1. rewrite Hwork, Hrb, Hre, Hcan. reflexivity.
Qed.

(** An attempt that fails and is not retried. *)
Lemma queryLoop_give_up fuel c ctx work retries queryOpts w queryOpts' e w' :
  ctxDone ctx (now w) = false →
  work queryOpts w = (Ret (queryOpts', inl e), w') →
  (∀ rb, N1qlRetryBehavior c = Some rb →
         isRetryableError e = false ∨ CanRetry rb (incr retries) = false) →
  loop (S fuel) c ctx work retries queryOpts w
  = (Ret (incr retries, Some (inl e)), w').
Proof.
  intros Hlive Hwork Hstop.
  cbn [queryLoop]. unfold bind at 1. cbn [getNow]. rewrite Hlive.
  unfold bind at 1. rewrite Hwork.
  destruct (N1qlRetryBehavior c) as [rb |]; [| reflexivity].
  destruct (Hstop rb eq_refl) as [-> | ->]; [reflexivity |].
  by rewrite orb_true_r.
Qed.

(** An attempt that succeeds. *)
Lemma queryLoop_success fuel c ctx work retries queryOpts w queryOpts' r w' :
  ctxDone ctx (now w) = false →
  work queryOpts w = (Ret (queryOpts', inr r), w') →
  loop (S fuel) c ctx work retries queryOpts w
  = (Ret (incr retries, Some (inr r)), w').
Proof.
  intros Hlive Hwork.
  cbn [queryLoop]. unfold bind at 1. cbn [getNow]. rewrite Hlive.
  unfold bind at 1. rewrite Hwork. reflexivity.
Qed.

(** Three attempts in a row that fail with retryable errors, the
    context live before each: under a policy that allows retries after
    attempts 1 and 2 only, the loop returns the third error right after
    the third attempt. *)
Lemma queryLoop_three_attempts fuel c ctx work rb q0 w0 q1 e1 w1 q2 e2 w2 q3 e3 w3 :
  N1qlRetryBehavior c = Some rb →
  (∀ n, CanRetry rb n = (n <=? 2)%N) →
  ctxDone ctx (now w0) = false →
  work q0 w0 = (Ret (q1, inl e1), w1) → isRetryableError e1 = true →
  ctxDone ctx (now (afterSleep (NextInterval rb 1) w1)) = false →
  work q1 (afterSleep (NextInterval rb 1) w1) = (Ret (q2, inl e2), w2) →
  isRetryableError e2 = true →
  ctxDone ctx (now (afterSleep (NextInterval rb 2) w2)) = false →
  work q2 (afterSleep (NextInterval rb 2) w2) = (Ret (q3, inl e3), w3) →
  loop (S (S (S fuel))) c ctx work 0%N q0 w0 = (Ret (3%N, Some (inl e3)), w3).
Proof.
  intros Hrb Hcan L0 W0 R1 L1 W1 R2 L2 W2.
  rewrite (queryLoop_retry _ _ _ _ _ _ _ rb _ _ _ L0 W0 Hrb R1) by (by rewrite Hcan).
  change (incr 0) with 1%N.
  rewrite (queryLoop_retry _ _ _ _ _ _ _ rb _ _ _ L1 W1 Hrb R2) by (by rewrite Hcan).
  change (incr 1) with 2%N.
  rewrite (queryLoop_give_up _ _ _ _ _ _ _ _ _ _ L2 W2); [reflexivity |].
  intros rb' Hrb'. right. rewrite Hrb in Hrb'. injection Hrb' as <-. by rewrite Hcan.
Qed.

Lemma afterSleep_now d w : now (afterSleep d w) = now w + Z.max 0 d.
Proof. reflexivity. Qed.

Lemma ctxDone_false ctx d t : deadline ctx = Some d → t < d → ctxDone ctx t = false.
Proof. intros Hd Ht. unfold ctxDone. rewrite Hd. apply Z.leb_gt. exact Ht. Qed.

(** C5, as amended.  A call in which the context is not done at the top
    of an iteration and each attempt that is made fails with a
    retryable error.  Under a policy with [CanRetry n] exactly for
    [n <= 2], the loop runs the unit of work three times (the second
    and third run start from where the back-off after the previous one
    ended) and returns the third error with nothing done after it;
    without a policy it runs the unit of work once and returns its
    error.  This holds for any unit of work, ad-hoc or cached. *)
Theorem retry_budget (c : Cluster) (ctx : Context)
    (work : gmap string value -> M (gmap string value * (error + n1qlResults)))
    (q0 : gmap string value) (w0 : World) (fuel : nat) :
  (∀ rb q1 e1 w1 q2 e2 w2 q3 e3 w3,
     N1qlRetryBehavior c = Some rb →
     (∀ n, CanRetry rb n = (n <=? 2)%N) →
     ctxDone ctx (now w0) = false →
     work q0 w0 = (Ret (q1, inl e1), w1) → isRetryableError e1 = true →
     ctxDone ctx (now (afterSleep (NextInterval rb 1) w1)) = false →
     work q1 (afterSleep (NextInterval rb 1) w1) = (Ret (q2, inl e2), w2) →
     isRetryableError e2 = true →
     ctxDone ctx (now (afterSleep (NextInterval rb 2) w2)) = false →
     work q2 (afterSleep (NextInterval rb 2) w2) = (Ret (q3, inl e3), w3) →
     isRetryableError e3 = true →
     loop (S (S (S fuel))) c ctx work 0%N q0 w0 = (Ret (3%N, Some (inl e3)), w3)) ∧
  (∀ q1 e1 w1,
     N1qlRetryBehavior c = None →
     ctxDone ctx (now w0) = false →
     work q0 w0 = (Ret (q1, inl e1), w1) → isRetryableError e1 = true →
     loop (S fuel) c ctx work 0%N q0 w0 = (Ret (1%N, Some (inl e1)), w1)).
Proof.
  split.
  - intros rb q1 e1 w1 q2 e2 w2 q3 e3 w3 Hrb Hcan L0 W0 R1 L1 W1 R2 L2 W2 _.
    by apply (queryLoop_three_attempts fuel c ctx work rb q0 w0 q1 e1 w1 q2 e2 w2 q3 e3 w3).
  - intros q1 e1 w1 Hnone L0 W0 _.
    apply (queryLoop_give_up fuel c ctx work 0%N q0 w0 q1 e1 w1 L0 W0).
    intros rb Hrb. congruence.
Qed.

End LoopFacts.

Lemma retry_budget_witness :
  (∃ w3,
     queryLoop Sample.isRetryableError 3 (Sample.cluster (Some Sample.twoRetries))
       {| deadline := Some 75000000000 |}
       (unitOfWork Sample.ParseDuration Sample.urlParseHost Sample.isRetryableError
          Sample.UnmarshalPrep false {| deadline := Some 75000000000 |}
          (Sample.scripted [] (Sample.answers 200 Sample.overloaded)))
       0%N {[ "statement" := VStr "SELECT 1" ]} Sample.world0
     = (Ret (3%N, Some (inl (MultiError (Wire.Errors Sample.overloaded)))), w3) ∧
     length (sent w3) = 3%nat) ∧
  (∃ w1,
     queryLoop Sample.isRetryableError 1 (Sample.cluster None)
       {| deadline := Some 75000000000 |}
       (unitOfWork Sample.ParseDuration Sample.urlParseHost Sample.isRetryableError
          Sample.UnmarshalPrep false {| deadline := Some 75000000000 |}
          (Sample.scripted [] (Sample.answers 200 Sample.overloaded)))
       0%N {[ "statement" := VStr "SELECT 1" ]} Sample.world0
     = (Ret (1%N, Some (inl (MultiError (Wire.Errors Sample.overloaded)))), w1) ∧
     length (sent w1) = 1%nat).
Proof.
  split.
  - eexists. split.
    + eapply (proj1 (retry_budget Sample.isRetryableError
                       (Sample.cluster (Some Sample.twoRetries))
                       {| deadline := Some 75000000000 |} _
                       {[ "statement" := VStr "SELECT 1" ]} Sample.world0 0)
                Sample.twoRetries).
      * reflexivity.
      * reflexivity.
      * reflexivity.
      * vm_compute. reflexivity.
      * reflexivity.
      * reflexivity.
      * vm_compute. reflexivity.
      * reflexivity.
      * reflexivity.
      * vm_compute. reflexivity.
      * reflexivity.
    + reflexivity.
  - eexists. split.
    + eapply (proj2 (retry_budget Sample.isRetryableError (Sample.cluster None)
                       {| deadline := Some 75000000000 |} _
                       {[ "statement" := VStr "SELECT 1" ]} Sample.world0 0)).
      * reflexivity.
      * reflexivity.
      * vm_compute. reflexivity.
      * reflexivity.
    + reflexivity.
Defined.

(** The call with a per-call timeout of 2ms against a provider that
    answers each request after 1ms with a retryable error, under the
    policy that backs off for 10ms: after the first attempt and its
    back-off the context is done, and the loop does not return. *)
Lemma short_timeout_run :
  ∃ w1, length (sent w1) = 1%nat ∧
    ∀ fuel,
      sampleQuery (S fuel) (Sample.cluster (Some Sample.twoRetries)) Background "SELECT 1"
        Params.zero (Sample.adHocOpts (Some "2ms"))
        (Sample.scripted [] (Sample.answers 200 Sample.overloaded)) Sample.world0
      = (Ret (1%N, None), w1).
Proof.
  eexists. split; cycle 1.
  - intros fuel. unfold query.
    assert (createQueryOpts "SELECT 1" Params.zero (Sample.adHocOpts (Some "2ms"))
            = ({[ "statement" := VStr "SELECT 1"; "timeout" := VStr "2ms" ]}, None)) as ->
      by (vm_compute; reflexivity).
    assert (reconcileTimeout Sample.ParseDuration Sample.DurationString
              (Sample.cluster (Some Sample.twoRetries))
              {[ "statement" := VStr "SELECT 1"; "timeout" := VStr "2ms" ]}
            = inr (2000000,
                   {[ "statement" := VStr "SELECT 1"; "timeout" := VStr "2ms" ]})) as ->
      by (vm_compute; reflexivity).
    unfold bind at 1. cbn [getNow].
    erewrite (queryLoop_retry Sample.isRetryableError fuel _ _ _ _ _ _ Sample.twoRetries);
      cycle 1.
    { reflexivity. }
    { vm_compute. reflexivity. }
    { reflexivity. }
    { reflexivity. }
    { reflexivity. }
    apply queryLoop_spins. reflexivity.
  - reflexivity.
Qed.

(** In that call the unit of work fails with a retryable error whenever
    it is run and the policy allows retries exactly after attempts 1
    and 2; yet the call never returns after three attempts with an
    error: it makes one attempt. *)
Lemma retry_budget_counterexample :
  (∀ ctx w, ∃ e w',
     unitOfWork Sample.ParseDuration Sample.urlParseHost Sample.isRetryableError
       Sample.UnmarshalPrep true ctx
       (Sample.scripted [] (Sample.answers 200 Sample.overloaded))
       {[ "statement" := VStr "SELECT 1"; "timeout" := VStr "2ms" ]} w
     = (Ret ({[ "statement" := VStr "SELECT 1"; "timeout" := VStr "2ms" ]}, inl e), w') ∧
     Sample.isRetryableError e = true) ∧
  (∀ n, CanRetry Sample.twoRetries n = (n <=? 2)%N) ∧
  ¬ (∃ fuel e w',
       sampleQuery fuel (Sample.cluster (Some Sample.twoRetries)) Background "SELECT 1"
         Params.zero (Sample.adHocOpts (Some "2ms"))
         (Sample.scripted [] (Sample.answers 200 Sample.overloaded)) Sample.world0
       = (Ret (3%N, Some (inl e)), w')).
Proof.
  split; [| split; [reflexivity |]].
  - intros ctx w. unfold unitOfWork, executeN1qlQuery.
    assert (jsonMarshal {[ "statement" := VStr "SELECT 1"; "timeout" := VStr "2ms" ]}
            = inr {[ "statement" := VStr "SELECT 1"; "timeout" := VStr "2ms" ]}) as ->
      by reflexivity.
    unfold bind, doHttp, Sample.scripted. cbn [DoHttpRequest].
    destruct (length (sent w)); cbn; eexists _, _; split; reflexivity.
  - intros (fuel & e & w' & Hrun).
    destruct short_timeout_run as (w1 & _ & Hspin).
    destruct fuel as [| fuel].
    + vm_compute in Hrun. discriminate Hrun.
    + rewrite Hspin in Hrun. discriminate Hrun.
Qed.

(** C1. A caller's context whose deadline has already passed: however
    many iterations the loop is run for, and whatever the provider and
    the retry policy, [query] has not returned and nothing was sent.
    And a context that expires during the back-off after a first failed
    attempt (timeout 2ms, round trip 1ms, back-off 10ms): the loop
    makes that one attempt and then never returns either. *)
Theorem expired_context_never_returns :
  (∀ fuel rb provider,
     sampleQuery fuel (Sample.cluster rb) {| deadline := Some 0 |} "SELECT 1"
       Params.zero (Sample.adHocOpts None) provider Sample.world0
     = (Ret (0%N, None), Sample.world0)) ∧
  (∃ w1, now w1 = 11000000 ∧ length (sent w1) = 1%nat ∧
     ∀ fuel,
       sampleQuery (S fuel) (Sample.cluster (Some Sample.twoRetries)) Background "SELECT 1"
         Params.zero (Sample.adHocOpts (Some "2ms"))
         (Sample.scripted [] (Sample.answers 200 Sample.overloaded)) Sample.world0
       = (Ret (1%N, None), w1)).
Proof.
  split.
  - intros fuel rb provider. unfold query.
    assert (createQueryOpts "SELECT 1" Params.zero (Sample.adHocOpts None)
            = ({[ "statement" := VStr "SELECT 1" ]}, None)) as ->
      by (vm_compute; reflexivity).
    assert (reconcileTimeout Sample.ParseDuration Sample.DurationString (Sample.cluster rb)
              {[ "statement" := VStr "SELECT 1" ]}
            = inr (75000000000,
                   <["timeout" := VStr "1m15s"]> {[ "statement" := VStr "SELECT 1" ]})) as ->
      by (vm_compute; reflexivity).
    unfold bind at 1. cbn [getNow].
    apply queryLoop_spins. reflexivity.
  - eexists. split; [| split]; cycle 2.
    + intros fuel. unfold query.
      assert (createQueryOpts "SELECT 1" Params.zero (Sample.adHocOpts (Some "2ms"))
              = ({[ "statement" := VStr "SELECT 1"; "timeout" := VStr "2ms" ]}, None)) as ->
        by (vm_compute; reflexivity).
      assert (reconcileTimeout Sample.ParseDuration Sample.DurationString
                (Sample.cluster (Some Sample.twoRetries))
                {[ "statement" := VStr "SELECT 1"; "timeout" := VStr "2ms" ]}
              = inr (2000000,
                     {[ "statement" := VStr "SELECT 1"; "timeout" := VStr "2ms" ]})) as ->
        by (vm_compute; reflexivity).
      unfold bind at 1. cbn [getNow].
      erewrite (queryLoop_retry Sample.isRetryableError fuel _ _ _ _ _ _ Sample.twoRetries);
        cycle 1.
      { reflexivity. }
      { vm_compute. reflexivity. }
      { reflexivity. }
      { reflexivity. }
      { reflexivity. }
      apply queryLoop_spins. reflexivity.
    + reflexivity.
    + reflexivity.
Qed.

(** ** Prepared statements *)

Lemma usePlan_statement queryOpts plan : usePlan queryOpts plan !! "statement" = None.
Proof.
  unfold usePlan. rewrite !lookup_insert_ne by done. apply lookup_delete_eq.
Qed.

Lemma usePlan_other queryOpts plan k :
  k ≠ "statement" → k ≠ "prepared" → k ≠ "encoded_plan" →
  usePlan queryOpts plan !! k = queryOpts !! k.
Proof.
  intros H1 H2 H3. unfold usePlan.
  rewrite !lookup_insert_ne by done. by apply lookup_delete_ne.
Qed.

Lemma length_append (p s : string) :
  String.length (p +:+ s) = (String.length p + String.length s)%nat.
Proof. induction p as [| a p IH]; simpl; [reflexivity | by f_equal]. Qed.

Lemma prepend_differs (p s : string) : p ≠ EmptyString → p +:+ s ≠ s.
Proof.
  intros Hp Heq. apply (f_equal String.length) in Heq.
  rewrite length_append in Heq.
  destruct p; [done |]. cbn in Heq. lia.
Qed.

Section PreparedFacts.

Variable ParseDuration : string -> option Z.
Variable urlParseHost : string -> option string.
Variable isRetryableError : error -> bool.
Variable UnmarshalPrep : RawMessage -> n1qlPrepData -> n1qlPrepData * option error.

(** The one request of the prepare step carries the option map it was
    given: the raw statement, not the statement behind "PREPARE ". *)
Lemma prepareN1qlQuery_request ctx opts provider w s :
  opts !! "statement" = Some (VStr s) →
  jsonMarshal opts = inr opts →
  ∃ req, sent (snd (prepareN1qlQuery ParseDuration urlParseHost UnmarshalPrep
                      ctx opts provider w)) = sent w ++ [req] ∧
         Body req !! "statement" = Some (VStr s) ∧
         Body req !! "statement" ≠ Some (VStr ("PREPARE " +:+ s)).
Proof.
  intros Hs Hm. exists (queryRequest ctx opts). split; [| split].
  - unfold prepareN1qlQuery. rewrite Hs. cbn [mustString].
    unfold bind at 1. unfold executeN1qlQuery. rewrite Hm.
    unfold bind at 1. cbn [doHttp].
    destruct (reply _) as [e | resp]; cbn; [reflexivity |].
    destruct (readResponse _ _ resp) as [e | res]; cbn; [reflexivity |].
    destruct (One UnmarshalPrep res zeroPrepData) as [[[[e |] | m] r] v]; reflexivity.
  - exact Hs.
  - cbn. rewrite Hs. intros [= Heq]. symmetry in Heq. by apply prepend_differs in Heq.
Qed.

(** A cache hit whose execution fails with a retryable error: the
    statement has been deleted from the shared option map by then, and
    the prepare step panics on its type assertion.  The world is as the
    failed execution left it. *)
Lemma reprepare_panics ctx queryOpts provider w s plan e w1 :
  queryOpts !! "statement" = Some (VStr s) →
  queryCache w !! s = Some plan →
  executeN1qlQuery ParseDuration urlParseHost ctx (usePlan queryOpts plan) provider w
  = (Ret (inl e), w1) →
  isRetryableError e = true →
  doPreparedN1qlQuery ParseDuration urlParseHost isRetryableError UnmarshalPrep
    ctx queryOpts provider w
  = (Panic "interface conversion: interface {} is not string", w1).
Proof.
  intros Hs Hc He Hr. unfold doPreparedN1qlQuery. rewrite Hs. cbn [assertString].
  unfold bind at 1. cbn [lookupCache]. rewrite Hc.
  unfold bind at 1. rewrite He, Hr. cbn [negb].
  unfold prepareAndExecute, prepareN1qlQuery.
  rewrite usePlan_statement. reflexivity.
Qed.

End PreparedFacts.

(** C3. Cached mode, nothing cached yet: the first request that goes to
    the provider, the one of the prepare step, has the raw statement
    under "statement"; the second one executes the plan that came back. *)
Theorem prepare_sends_raw_statement :
  ∃ req1 req2,
    sent (snd (sampleQuery 1 (Sample.cluster None) Background "SELECT 1"
                 Params.zero Opts.zero
                 (Sample.scripted [] (Sample.answers 200 (Sample.response ["p7"] [])))
                 Sample.world0)) = [req1; req2] ∧
    Body req1 !! "statement" = Some (VStr "SELECT 1") ∧
    Body req1 !! "statement" ≠ Some (VStr "PREPARE SELECT 1") ∧
    Body req2 !! "prepared" = Some (VStr "p7").
Proof.
  eexists _, _. split; [vm_compute; reflexivity |].
  split; [vm_compute; reflexivity |]. split; [| vm_compute; reflexivity].
  vm_compute. discriminate.
Qed.

(** C2. Cached mode with a plan in the cache, an execution that fails
    with code 4050 (plan not found), and a provider that would answer
    any further request: [query] panics in the prepare step.  The only
    request sent is the failed execution of the cached plan, and the
    cache still holds the old plan. *)
Theorem reprepare_after_invalidation_panics :
  ∃ w1 req,
    (∀ fuel,
       sampleQuery (S fuel) (Sample.cluster (Some Sample.twoRetries)) Background "SELECT 1"
         Params.zero Opts.zero
         (Sample.scripted [Sample.answers 200 Sample.twoErrors]
                          (Sample.answers 200 (Sample.response ["p7"] [])))
         Sample.stalePlan
       = (Panic "interface conversion: interface {} is not string", w1)) ∧
    sent w1 = [req] ∧
    Body req !! "prepared" = Some (VStr "p1") ∧
    Body req !! "statement" = None ∧
    queryCache w1 = queryCache Sample.stalePlan.
Proof.
  eexists _, _. split; [| split; [| split; [| split]]].
  - intros fuel. unfold query.
    assert (createQueryOpts "SELECT 1" Params.zero Opts.zero
            = ({[ "statement" := VStr "SELECT 1" ]}, None)) as ->
      by (vm_compute; reflexivity).
    assert (reconcileTimeout Sample.ParseDuration Sample.DurationString
              (Sample.cluster (Some Sample.twoRetries))
              {[ "statement" := VStr "SELECT 1" ]}
            = inr (75000000000,
                   <["timeout" := VStr "1m15s"]> {[ "statement" := VStr "SELECT 1" ]})) as ->
      by (vm_compute; reflexivity).
    unfold bind at 1. cbn [getNow queryLoop].
    unfold bind at 1. cbn [getNow].
    change (ctxDone _ _) with false. cbv iota.
    unfold bind at 1. cbn [unitOfWork Opts.adHoc Opts.zero].
    erewrite (reprepare_panics _ _ _ _ _ _ _ _ "SELECT 1"); cycle 1.
    { vm_compute. reflexivity. }
    { vm_compute. reflexivity. }
    { vm_compute. reflexivity. }
    { reflexivity. }
    reflexivity.
  - reflexivity.
  - vm_compute. reflexivity.
  - vm_compute. reflexivity.
  - reflexivity.
Qed.

(** ** What goes out to the provider *)

Lemma sending_ret {A} Q (R : A → Prop) a : R a → sending Q R (ret a).
Proof.
  intros Ha w. exists []. cbn. rewrite app_nil_r.
  repeat split; [constructor |]. by intros ? [= <-].
Qed.

Lemma sending_panic {A} Q (R : A → Prop) msg : sending Q R (panic msg).
Proof.
  intros w. exists []. cbn. rewrite app_nil_r. repeat split; [constructor | done].
Qed.

Lemma sending_bind {A B} Q (R : A → Prop) (R' : B → Prop) (m : M A) (k : A → M B) :
  sending Q R m → (∀ a, R a → sending Q R' (k a)) → sending Q R' (bind m k).
Proof.
  intros Hm Hk w. destruct (Hm w) as (l & Hl & HQ & HR).
  unfold bind. destruct (m w) as [[a | msg] w1]; cbn in *.
  - destruct (Hk a (HR a eq_refl) w1) as (l' & Hl' & HQ' & HR').
    exists (l ++ l'). rewrite Hl', Hl, app_assoc.
    split; [reflexivity |]. split; [by apply Forall_app | exact HR'].
  - exists l. repeat split; done.
Qed.

Lemma sending_weaken {A} Q (R R' : A → Prop) (m : M A) :
  (∀ a, R a → R' a) → sending Q R m → sending Q R' m.
Proof.
  intros Himp Hm w. destruct (Hm w) as (l & Hl & HQ & HR).
  exists l. repeat split; [done .. |]. intros a Ha. by apply Himp, HR.
Qed.

Lemma sending_doHttp Q p req : Q req → sending Q (fun _ => True) (doHttp p req).
Proof.
  intros Hreq w. exists [req]. cbn. repeat split. by repeat constructor.
Qed.

Lemma sending_quiet {A} Q (m : M A) :
  (∀ w, sent (snd (m w)) = sent w) → sending Q (fun _ => True) m.
Proof.
  intros Hm w. exists []. rewrite app_nil_r. repeat split; [apply Hm | constructor].
Qed.

Section Outgoing.

Variable ParseDuration : string -> option Z.
Variable DurationString : Z -> string.
Variable urlParseHost : string -> option string.
Variable isRetryableError : error -> bool.
Variable UnmarshalPrep : RawMessage -> n1qlPrepData -> n1qlPrepData * option error.

Lemma executeN1qlQuery_sending ctx opts provider v :
  opts !! "timeout" = Some v →
  sending (carries v) (fun _ => True)
          (executeN1qlQuery ParseDuration urlParseHost ctx opts provider).
Proof.
  intros Hv. unfold executeN1qlQuery.
  destruct (jsonMarshal opts) as [e | body] eqn:Hm; [by apply sending_ret |].
  apply jsonMarshal_inr in Hm as ->.
  apply (sending_bind _ (fun _ => True)); [by apply sending_doHttp |].
  intros [e | resp] _; by apply sending_ret.
Qed.

Lemma prepareN1qlQuery_sending ctx opts provider v :
  opts !! "timeout" = Some v →
  sending (carries v) (fun _ => True)
          (prepareN1qlQuery ParseDuration urlParseHost UnmarshalPrep ctx opts provider).
Proof.
  intros Hv. unfold prepareN1qlQuery.
  destruct (mustString _) as [s | m]; [| apply sending_panic].
  apply (sending_bind _ (fun _ => True)); [by apply executeN1qlQuery_sending |].
  intros [e | res] _; [by apply sending_ret |].
  destruct (One UnmarshalPrep res zeroPrepData) as [[[[e |] | m] r] p];
    first [by apply sending_ret | apply sending_panic].
Qed.

Lemma usePlan_timeout queryOpts plan v :
  queryOpts !! "timeout" = Some v → usePlan queryOpts plan !! "timeout" = Some v.
Proof. intros Hv. by rewrite usePlan_other. Qed.

Lemma prepareAndExecute_sending ctx stmtStr queryOpts provider v :
  queryOpts !! "timeout" = Some v →
  sending (carries v) (fun p => fst p !! "timeout" = Some v)
          (prepareAndExecute ParseDuration urlParseHost UnmarshalPrep
             ctx stmtStr queryOpts provider).
Proof.
  intros Hv. unfold prepareAndExecute.
  apply (sending_bind _ (fun _ => True)); [by apply prepareN1qlQuery_sending |].
  intros [e | plan] _; [by apply sending_ret |].
  apply (sending_bind _ (fun _ => True)); [by apply sending_quiet |].
  intros _ _.
  apply (sending_bind _ (fun _ => True));
    [by apply executeN1qlQuery_sending, usePlan_timeout |].
  intros res _. apply sending_ret. by apply usePlan_timeout.
Qed.

Lemma doPreparedN1qlQuery_sending ctx queryOpts provider v :
  queryOpts !! "timeout" = Some v →
  sending (carries v) (fun p => fst p !! "timeout" = Some v)
          (doPreparedN1qlQuery ParseDuration urlParseHost isRetryableError UnmarshalPrep
             ctx queryOpts provider).
Proof.
  intros Hv. unfold doPreparedN1qlQuery.
  destruct (assertString _) as [stmtStr isStr].
  apply (sending_bind _ (fun _ => True)); [by apply sending_quiet |].
  intros [plan |] _; [| by apply prepareAndExecute_sending].
  apply (sending_bind _ (fun _ => True));
    [by apply executeN1qlQuery_sending, usePlan_timeout |].
  intros [e | res] _.
  - destruct (negb _).
    + apply sending_ret. by apply usePlan_timeout.
    + by apply prepareAndExecute_sending, usePlan_timeout.
  - apply sending_ret. by apply usePlan_timeout.
Qed.

Lemma unitOfWork_sending adHoc ctx provider queryOpts v :
  queryOpts !! "timeout" = Some v →
  sending (carries v) (fun p => fst p !! "timeout" = Some v)
          (unitOfWork ParseDuration urlParseHost isRetryableError UnmarshalPrep
             adHoc ctx provider queryOpts).
Proof.
  intros Hv. unfold unitOfWork. destruct adHoc.
  - apply (sending_bind _ (fun _ => True)); [by apply executeN1qlQuery_sending |].
    intros res _. by apply sending_ret.
  - by apply doPreparedN1qlQuery_sending.
Qed.

Lemma queryLoop_sending fuel c ctx work v :
  (∀ q, q !! "timeout" = Some v →
        sending (carries v) (fun p => fst p !! "timeout" = Some v) (work q)) →
  ∀ retries queryOpts,
    queryOpts !! "timeout" = Some v →
    sending (carries v) (fun _ => True)
            (queryLoop isRetryableError fuel c ctx work retries queryOpts).
Proof.
  intros Hwork. induction fuel as [| fuel IH]; intros retries queryOpts Hv.
  - by apply sending_ret.
  - cbn [queryLoop].
    apply (sending_bind _ (fun _ => True)); [by apply sending_quiet |].
    intros t _. destruct (ctxDone ctx t); [by apply IH |].
    apply (sending_bind _ (fun p => fst p !! "timeout" = Some v)); [by apply Hwork |].
    intros [q' [e | r]] Hq'; cbn in Hq'; [| by apply sending_ret].
    destruct (N1qlRetryBehavior c) as [rb |]; [| by apply sending_ret].
    destruct (_ || _); [by apply sending_ret |].
    apply (sending_bind _ (fun _ => True)); [by apply sending_quiet |].
    intros _ _. by apply IH.
Qed.

(** Every request of a call carries the effective timeout, as a string,
    under "timeout": in ad-hoc and in cached mode, for the prepare step
    and for every execution, on every attempt. *)
Lemma query_requests_carry_timeout fuel c ctx statement params opts provider w :
  let queryOpts := fst (createQueryOpts statement params opts) in
  let v := VStr (DurationString (specTimeout (n1qlTimeout c)
                                   (override ParseDuration queryOpts))) in
  ∃ l, sent (snd (query ParseDuration DurationString urlParseHost isRetryableError
                    UnmarshalPrep fuel c ctx statement params opts provider w))
       = sent w ++ l ∧
       Forall (carries v) l.
Proof.
  intros queryOpts v. unfold query.
  assert (createQueryOpts statement params opts = (queryOpts, None)) as -> by reflexivity.
  destruct (queryOpts !! "timeout") as [[| | | s | |] |] eqn:Hq.
  4: destruct (ParseDuration s) as [d |] eqn:Hd.
  5: { rewrite (reconcileTimeout_parse_error _ _ _ _ s Hq Hd).
       exists []. cbn. by rewrite app_nil_r. }
  all: destruct (reconcileTimeout_ok ParseDuration DurationString c queryOpts)
         as (q' & -> & Hkey & _);
       [ intros s' Hs'; rewrite Hq in Hs'; first [discriminate | injection Hs' as <-; eauto]
       | ].
  all: match goal with
       | |- context [bind getNow ?k] =>
           destruct (sending_bind (carries v) (fun _ => True) (fun _ => True) getNow k
                       ltac:(by apply sending_quiet)
                       ltac:(intros t _; apply queryLoop_sending;
                             [intros q Hq0; by apply unitOfWork_sending | exact Hkey]) w)
             as (reqs & Hl & HQ & _)
       end; exists reqs; split; assumption.
Qed.

End Outgoing.




(** * Further properties *)

(** ** More on the cursor *)

Section CursorIteration.

Context {T : Type}.
Variable Unmarshal : RawMessage -> T -> T * option error.

Lemma Next_at_end r (v : T) :
  midway r 0 → Next Unmarshal r v = (Ret false, setClosed r true, v).
Proof.
  intros Hm. unfold Next. rewrite (NextBytes_end r Hm).
  destruct Hm as (-> & _). reflexivity.
Qed.

Lemma Next_at_row r k row (v : T) :
  midway r (S k) → rows r !! Z.to_nat (index r + 1) = Some row →
  Next Unmarshal r v
  = (Ret (match snd (Unmarshal row v) with None => true | Some _ => false end),
     setErr (setIndex r (index r + 1)) (snd (Unmarshal row v)),
     fst (Unmarshal row v)).
Proof.
  intros Hm Hrow. destruct (NextBytes_row r k Hm) as (row' & Hrow' & Hnb & _).
  rewrite Hrow in Hrow'. injection Hrow' as <-.
  unfold Next. rewrite Hnb. destruct Hm as (-> & _).
  destruct (Unmarshal row v) as [v1 [e |]]; reflexivity.
Qed.

Lemma nextAll_midway k : ∀ r (v : T),
  midway r k →
  ∃ r',
    nextAll Unmarshal (S k) r v
    = (Ret (fst (fst (decodeRows Unmarshal (drop (Z.to_nat (index r + 1)) (rows r)) v))),
       r',
       snd (fst (decodeRows Unmarshal (drop (Z.to_nat (index r + 1)) (rows r)) v))) ∧
    err r' = snd (decodeRows Unmarshal (drop (Z.to_nat (index r + 1)) (rows r)) v) ∧
    closed r' = match snd (decodeRows Unmarshal (drop (Z.to_nat (index r + 1)) (rows r)) v) with
                | None => true
                | Some _ => closed r
                end.
Proof.
  induction k as [| k IH]; intros r v Hm.
  - exists (setClosed r true). cbn [nextAll]. rewrite (Next_at_end r v Hm).
    destruct Hm as (He & Hi & Hk). rewrite drop_ge by lia. cbn. by repeat split.
  - destruct (NextBytes_row r k Hm) as (row & Hrow & _ & Hm').
    change (nextAll Unmarshal (S (S k)) r v) with
      (match Next Unmarshal r v with
       | (Panic m, r1, v1) => (Panic m, r1, v1)
       | (Ret false, r1, v1) => (Ret [], r1, v1)
       | (Ret true, r1, v1) =>
           match nextAll Unmarshal (S k) r1 v1 with
           | (Ret l, r2, v2) => (Ret (v1 :: l), r2, v2)
           | (Panic m, r2, v2) => (Panic m, r2, v2)
           end
       end).
    rewrite (Next_at_row r k row v Hm Hrow).
    rewrite (drop_S _ _ _ Hrow). cbn [decodeRows].
    destruct (Unmarshal row v) as [v1 [e |]]; cbn [fst snd].
    + eexists. repeat split.
    + assert (midway (setErr (setIndex r (index r + 1)) None) k) as Hm''.
      { destruct Hm' as (? & ? & ?). by repeat split. }
      destruct (IH _ v1 Hm'') as (r' & Hrun & Herr & Hcl).
      cbn [index setErr setIndex rows closed] in Hrun, Herr, Hcl.
      replace (Z.to_nat (index r + 1 + 1)) with (S (Z.to_nat (index r + 1))) in *
        by (destruct Hm as (_ & ? & _); lia).
      rewrite Hrun.
      destruct (decodeRows Unmarshal (drop (S (Z.to_nat (index r + 1))) (rows r)) v1)
        as [[vs v2] e2]; cbn [fst snd] in *.
      exists r'. by repeat split.
Qed.

End CursorIteration.

(** ** Metadata and closing *)






Section CursorMore.

Context {T : Type}.
Variable Unmarshal : RawMessage -> T -> T * option error.
Variable ParseDuration : string -> option Z.
Variable urlParseHost : string -> option string.

(** X1. Reading the cursor of a response with [Next] until it returns
    false decodes the rows in order into the target.  When every row
    decodes, all of them are delivered and the cursor ends up closed
    with no error; when a row does not decode, the rows before it are
    delivered, the loop stops there, the error is retained (and is what
    [Close] returns) and the cursor is left open. *)
Theorem Next_loop_decodes_in_order (endpoint : string) (resp : Wire.n1qlResponse) (v : T) :
  ∃ r',
    nextAll Unmarshal (S (length (Wire.Results resp)))
            (newResults ParseDuration urlParseHost endpoint resp) v
    = (Ret (fst (fst (decodeRows Unmarshal (Wire.Results resp) v))), r',
       snd (fst (decodeRows Unmarshal (Wire.Results resp) v))) ∧
    fst (Close r') = snd (decodeRows Unmarshal (Wire.Results resp) v) ∧
    closed r' = match snd (decodeRows Unmarshal (Wire.Results resp) v) with
                | None => true
                | Some _ => false
                end.
Proof.
  destruct (nextAll_midway Unmarshal _ _ v (newResults_midway ParseDuration urlParseHost
                                              endpoint resp))
    as (r' & Hrun & Herr & Hcl).
  exists r'. split; [exact Hrun |]. split; [exact Herr | exact Hcl].
Qed.

Lemma newResults_inRange endpoint resp :
  inRange (newResults ParseDuration urlParseHost endpoint resp).
Proof. unfold inRange. cbn. lia. Qed.

Lemma NextBytes_inRange r :
  inRange r → ∃ o r', NextBytes r = (Ret o, r') ∧ inRange r' ∧ rows r' = rows r.
Proof.
  intros Hr. unfold NextBytes. destruct (err r); [by eexists _, _ |].
  destruct (Z.geb_spec (index r + 1) (Z.of_nat (length (rows r)))).
  - by eexists _, _.
  - unfold rowAt. cbn [rows index setIndex].
    destruct (Z.ltb_spec (index r + 1) 0); [unfold inRange in Hr; lia |].
    destruct (lookup_lt_is_Some_2 (rows r) (Z.to_nat (index r + 1))) as [row ->]; [lia |].
    eexists _, _. split; [reflexivity |]. split; [| reflexivity].
    unfold inRange in *. cbn. lia.
Qed.

Lemma Next_inRange r (v : T) :
  inRange r → ∃ b r' v', Next Unmarshal r v = (Ret b, r', v') ∧ inRange r'.
Proof.
  intros Hr. unfold Next. destruct (err r); [by eexists _, _, _ |].
  destruct (NextBytes_inRange r Hr) as ([row |] & r1 & -> & Hr1 & _).
  - destruct (Unmarshal row v) as [v1 [e |]]; by eexists _, _, _.
  - by eexists _, _, _.
Qed.

(** X2. The index of the cursor that [executeN1qlQuery] builds is in
    range, and [NextBytes], [Next], [One] and [Close] keep it in range:
    on such a cursor none of them panics on the row lookup. *)
Theorem cursor_index_stays_in_range (endpoint : string) (resp : Wire.n1qlResponse)
    (r : n1qlResults) (v : T) :
  inRange (newResults ParseDuration urlParseHost endpoint resp) ∧
  (inRange r →
     (∃ o r', NextBytes r = (Ret o, r') ∧ inRange r') ∧
     (∃ b r' v', Next Unmarshal r v = (Ret b, r', v') ∧ inRange r') ∧
     (∃ e r' v', One Unmarshal r v = (Ret e, r', v') ∧ inRange r') ∧
     inRange (snd (Close r))).
Proof.
  split; [apply newResults_inRange |]. intros Hr. repeat split.
  - destruct (NextBytes_inRange r Hr) as (o & r' & H1 & H2 & _). by exists o, r'.
  - by apply Next_inRange.
  - unfold One. destruct (Next_inRange r v Hr) as ([|] & r1 & v1 & -> & Hr1); cbn.
    + by eexists _, _, _.
    + destruct (err r1); by eexists _, _, _.
  - exact (proj1 Hr).
  - exact (proj2 Hr).
Qed.

(** X3. On the cursor of a response with at least one row, [One]
    decodes the first row only: it returns the decoder's error for that
    row (nil if it decoded), leaves the target as the decoder left it,
    and closes the cursor with the index on that first row. *)
Theorem One_decodes_first_row_only (endpoint : string) (resp : Wire.n1qlResponse)
    (row : RawMessage) (rest : list RawMessage) (v : T) :
  Wire.Results resp = row :: rest →
  ∃ r', One Unmarshal (newResults ParseDuration urlParseHost endpoint resp) v
        = (Ret (snd (Unmarshal row v)), r', fst (Unmarshal row v)) ∧
        closed r' = true ∧ index r' = 0.
Proof.
  intros Hrows.
  pose proof (newResults_midway ParseDuration urlParseHost endpoint resp) as Hm.
  rewrite Hrows in Hm. cbn [length] in Hm.
  unfold One.
  rewrite (Next_at_row Unmarshal _ (length rest) row v Hm) by (cbn; by rewrite Hrows).
  destruct (Unmarshal row v) as [v1 [e |]]; cbn; eexists; repeat split.
Qed.

(** X4. [Close] can be called twice with the same result, returns the
    retained error and makes the three metadata accessors return the
    stored fields; it does not end the iteration: on a cursor with rows
    left, [NextBytes] after [Close] returns the same next row as
    without it. *)
Theorem Close_opens_metadata_keeps_rows (r : n1qlResults) (k : nat) :
  Close (snd (Close r)) = Close r ∧
  fst (Close r) = err r ∧
  RequestId (snd (Close r)) = Ret (requestId r) ∧
  ClientContextId (snd (Close r)) = Ret (clientContextId r) ∧
  Metrics (snd (Close r)) = Ret (metrics r) ∧
  (midway r (S k) →
     ∃ row r1, NextBytes r = (Ret (Some row), r1) ∧
               NextBytes (snd (Close r)) = (Ret (Some row), setClosed r1 true)).
Proof.
  repeat split.
  intros Hm. destruct (NextBytes_row r k Hm) as (row & Hrow & Hnb & _).
  exists row, (setIndex r (index r + 1)). split; [exact Hnb |].
  assert (midway (snd (Close r)) (S k)) as Hm' by exact Hm.
  destruct (NextBytes_row _ k Hm') as (row' & Hrow' & Hnb' & _).
  cbn [Close snd rows index setClosed] in Hrow'. rewrite Hrow in Hrow'.
  injection Hrow' as <-. rewrite Hnb'. reflexivity.
Qed.

End CursorMore.

Lemma cursor_index_stays_in_range_witness :
  inRange Sample.cursor3 ∧
  (∃ o r', NextBytes Sample.cursor3 = (Ret o, r') ∧ inRange r') ∧
  inRange (snd (Close Sample.cursor3)).
Proof.
  destruct (cursor_index_stays_in_range Sample.UnmarshalPrep Sample.ParseDuration
              Sample.urlParseHost "http://10.0.0.1:8093" (Sample.response ["1"; "2"; "3"] [])
              Sample.cursor3 zeroPrepData) as (Hnew & Hkeep).
  split; [exact Hnew |].
  destruct (Hkeep Hnew) as (Hnb & _ & _ & Hclose).
  split; [exact Hnb | exact Hclose].
Defined.

Lemma One_decodes_first_row_only_witness :
  ∃ r', One Sample.UnmarshalPrep Sample.cursor3 zeroPrepData
        = (Ret None, r', {| EncodedPlan := "enc:1"; Name := "1" |}) ∧
        closed r' = true ∧ index r' = 0.
Proof.
  apply (One_decodes_first_row_only Sample.UnmarshalPrep Sample.ParseDuration
           Sample.urlParseHost "http://10.0.0.1:8093" (Sample.response ["1"; "2"; "3"] [])
           "1" ["2"; "3"] zeroPrepData).
  reflexivity.
Defined.

Lemma Close_opens_metadata_keeps_rows_witness :
  midway Sample.cursor3 3 ∧
  ∃ r1, NextBytes Sample.cursor3 = (Ret (Some "1"), r1) ∧
        NextBytes (snd (Close Sample.cursor3)) = (Ret (Some "1"), setClosed r1 true).
Proof.
  assert (midway Sample.cursor3 3) as Hm by (repeat split; cbn; lia).
  split; [exact Hm |].
  destruct (Close_opens_metadata_keeps_rows Sample.cursor3 2)
    as (_ & _ & _ & _ & _ & Hrows).
  destruct (Hrows Hm) as (row & r1 & Hnb & Hnb').
  exists r1.
  assert (row = "1") as ->.
  { assert (NextBytes Sample.cursor3 = (Ret (Some "1"), setIndex Sample.cursor3 0)) as Hc
      by reflexivity.
    rewrite Hc in Hnb. by injection Hnb as <- _. }
  split; [exact Hnb | exact Hnb'].
Defined.

(** ** More on the dispatcher *)

Lemma jsonMarshal_unsupported (opts : gmap string value) k v :
  opts !! k = Some v → jsonSupported v = false →
  jsonMarshal opts = inl (JsonError "unsupported type").
Proof.
  intros Hk Hv. unfold jsonMarshal.
  destruct (forallb _ _) eqn:Hall; [| reflexivity].
  rewrite forallb_forall in Hall.
  specialize (Hall (k, v)). cbn in Hall. rewrite Hv in Hall.
  assert (false = true); [| discriminate].
  apply Hall. apply list_elem_of_In. by apply elem_of_map_to_list.
Qed.

Section DispatcherMore.

Variable ParseDuration : string -> option Z.
Variable urlParseHost : string -> option string.

Abbreviation execute := (executeN1qlQuery ParseDuration urlParseHost).

(** Whatever the reply, [executeN1qlQuery] returns (it does not panic),
    leaves the plan cache alone, never moves the clock back and sends at
    most one request, the one built from the option map. *)
Lemma executeN1qlQuery_total ctx opts provider w :
  ∃ res w', execute ctx opts provider w = (Ret res, w') ∧
            queryCache w' = queryCache w ∧ now w <= now w' ∧
            ∃ l, sent w' = sent w ++ l ∧ (length l <= 1)%nat ∧
                 Forall (fun req => req = queryRequest ctx opts) l.
Proof.
  unfold executeN1qlQuery.
  destruct (jsonMarshal opts) as [e | body] eqn:Hm.
  - exists (inl e), w. cbn. repeat split; [lia |].
    exists []. rewrite app_nil_r. repeat split; [cbn; lia | constructor].
  - apply jsonMarshal_inr in Hm as ->. unfold bind, doHttp.
    destruct (reply _) as [e | resp]; cbn;
      eexists _, _; (split; [reflexivity |]); cbn;
      (split; [reflexivity |]); (split; [lia |]);
      exists [queryRequest ctx opts]; repeat split; (cbn; try lia);
      by repeat constructor.
Qed.

(** X5. [executeN1qlQuery] returns a cursor exactly when the option map
    can be encoded, the provider completes the round trip, the body
    decodes and the decoded error list is empty; the cursor is then the
    one built from that response.  Status code, metrics strings and
    endpoint play no part in whether the call succeeds. *)
Theorem executeN1qlQuery_succeeds_iff (ctx : Context) (opts : gmap string value)
    (provider : queryProvider) (w : World) (r : n1qlResults) :
  fst (execute ctx opts provider w) = Ret (inr r) ↔
  jsonMarshal opts = inr opts ∧
  ∃ resp n1qlResp,
    reply (DoHttpRequest provider (now w) (sent w) (queryRequest ctx opts)) = inr resp ∧
    Decoded resp = inr n1qlResp ∧ Wire.Errors n1qlResp = [] ∧
    r = newResults ParseDuration urlParseHost (Endpoint resp) n1qlResp.
Proof.
  split.
  - unfold executeN1qlQuery.
    destruct (jsonMarshal opts) as [e | body] eqn:Hm; [discriminate |].
    pose proof (jsonMarshal_inr _ _ Hm) as ->.
    unfold bind, doHttp.
    destruct (reply _) as [e | resp] eqn:Hr; cbn; [discriminate |].
    unfold readResponse.
    destruct (Decoded resp) as [e | n] eqn:Hd; [discriminate |].
    destruct (Wire.Errors n) as [| e0 rest] eqn:He; cbn; [| discriminate].
    unfold statusError. destruct (negb _); intros [= <-];
      (split; [reflexivity |]); by exists resp, n.
  - intros (Hm & resp & n & Hr & Hd & He & ->).
    rewrite (executeN1qlQuery_reply _ _ _ _ _ _ _ Hm Hr). cbn [fst].
    by rewrite (readResponse_ignores_status _ _ _ _ Hd He).
Qed.

(** X6. An option value that [encoding/json] cannot encode makes
    [executeN1qlQuery] return the encoder's error without contacting
    the provider: the world is unchanged. *)
Theorem unencodable_option_sends_nothing (ctx : Context) (opts : gmap string value)
    (provider : queryProvider) (w : World) (k : string) (v : value) :
  opts !! k = Some v → jsonSupported v = false →
  execute ctx opts provider w = (Ret (inl (JsonError "unsupported type")), w).
Proof.
  intros Hk Hv. unfold executeN1qlQuery.
  by rewrite (jsonMarshal_unsupported opts k v Hk Hv).
Qed.

(** X7. A failed round trip and a body that does not decode surface
    the provider's, respectively the decoder's, error unchanged, after
    exactly one request and with the plan cache untouched. *)
Theorem transport_and_decode_errors_unchanged (ctx : Context) (opts : gmap string value)
    (provider : queryProvider) (w : World) (e : error) :
  jsonMarshal opts = inr opts →
  (reply (DoHttpRequest provider (now w) (sent w) (queryRequest ctx opts)) = inl e ∨
   ∃ resp, reply (DoHttpRequest provider (now w) (sent w) (queryRequest ctx opts)) = inr resp ∧
           Decoded resp = inl e) →
  ∃ w', execute ctx opts provider w = (Ret (inl e), w') ∧
        sent w' = sent w ++ [queryRequest ctx opts] ∧
        queryCache w' = queryCache w.
Proof.
  intros Hm [Hr | (resp & Hr & Hd)].
  - unfold executeN1qlQuery. rewrite Hm. unfold bind, doHttp. rewrite Hr.
    eexists. repeat split.
  - rewrite (executeN1qlQuery_reply _ _ _ _ _ _ _ Hm Hr).
    unfold readResponse. rewrite Hd. eexists. repeat split.
Qed.

(** X8. The only error [executeN1qlQuery] makes out of a body that
    decoded is the aggregate of a non-empty error list, so [Code] and
    [Error] of such an error never panic on an empty slice. *)
Theorem decoded_response_error_is_nonempty_aggregate (ctx : Context)
    (opts : gmap string value) (provider : queryProvider) (w : World)
    (resp : HttpResponse) (n1qlResp : Wire.n1qlResponse) (e : error) :
  jsonMarshal opts = inr opts →
  reply (DoHttpRequest provider (now w) (sent w) (queryRequest ctx opts)) = inr resp →
  Decoded resp = inr n1qlResp →
  fst (execute ctx opts provider w) = Ret (inl e) →
  ∃ e0 rest, Wire.Errors n1qlResp = e0 :: rest ∧ e = MultiError (e0 :: rest) ∧
             n1qlMultiError_Code (errorList e) = Ret (Code e0) ∧
             n1qlMultiError_Error (errorList e) = Ret (n1qlError_Error e0).
Proof.
  intros Hm Hr Hd. rewrite (executeN1qlQuery_reply _ _ _ _ _ _ _ Hm Hr). cbn [fst].
  unfold readResponse. rewrite Hd.
  destruct (Wire.Errors n1qlResp) as [| e0 rest]; cbn.
  - unfold statusError. destruct (negb _); discriminate.
  - intros [= <-]. by exists e0, rest.
Qed.

End DispatcherMore.

Lemma unencodable_option_sends_nothing_witness :
  executeN1qlQuery Sample.ParseDuration Sample.urlParseHost Background
    {[ "statement" := VStr "SELECT 1"; "args" := VArr [VInt 1; VChan] ]}
    (Sample.scripted [] (Sample.answers 200 (Sample.response ["1"] []))) Sample.world0
  = (Ret (inl (JsonError "unsupported type")), Sample.world0).
Proof.
  apply (unencodable_option_sends_nothing Sample.ParseDuration Sample.urlParseHost
           Background _ _ Sample.world0 "args" (VArr [VInt 1; VChan])); reflexivity.
Defined.

Lemma transport_and_decode_errors_unchanged_witness :
  (∃ w', executeN1qlQuery Sample.ParseDuration Sample.urlParseHost Background
           {[ "statement" := VStr "SELECT 1" ]}
           (Sample.scripted [] (Sample.fails "connection reset")) Sample.world0
         = (Ret (inl (ProviderError "connection reset")), w') ∧
         length (sent w') = 1%nat) ∧
  (∃ w', executeN1qlQuery Sample.ParseDuration Sample.urlParseHost Background
           {[ "statement" := VStr "SELECT 1" ]}
           (Sample.scripted [] Sample.garbled) Sample.world0
         = (Ret (inl (JsonError "unexpected end of JSON input")), w') ∧
         length (sent w') = 1%nat).
Proof.
  split.
  - destruct (transport_and_decode_errors_unchanged Sample.ParseDuration Sample.urlParseHost
                Background {[ "statement" := VStr "SELECT 1" ]}
                (Sample.scripted [] (Sample.fails "connection reset")) Sample.world0
                (ProviderError "connection reset")) as (w' & Hrun & Hsent & _).
    + reflexivity.
    + left. reflexivity.
    + exists w'. split; [exact Hrun |]. rewrite Hsent. reflexivity.
  - destruct (transport_and_decode_errors_unchanged Sample.ParseDuration Sample.urlParseHost
                Background {[ "statement" := VStr "SELECT 1" ]}
                (Sample.scripted [] Sample.garbled) Sample.world0
                (JsonError "unexpected end of JSON input")) as (w' & Hrun & Hsent & _).
    + reflexivity.
    + right. eexists. split; reflexivity.
    + exists w'. split; [exact Hrun |]. rewrite Hsent. reflexivity.
Defined.

Lemma decoded_response_error_is_nonempty_aggregate_witness :
  ∃ e0 rest,
    Wire.Errors Sample.twoErrors = e0 :: rest ∧
    n1qlMultiError_Code (e0 :: rest) = Ret 4050%N.
Proof.
  destruct (decoded_response_error_is_nonempty_aggregate Sample.ParseDuration
              Sample.urlParseHost Background {[ "statement" := VStr "SELECT 1" ]}
              (Sample.scripted [] (Sample.answers 200 Sample.twoErrors)) Sample.world0
              {| StatusCode := 200; Endpoint := "http://10.0.0.1:8093";
                 Decoded := inr Sample.twoErrors |}
              Sample.twoErrors (MultiError (Wire.Errors Sample.twoErrors)))
    as (e0 & rest & Herrs & _ & _ & _); [reflexivity .. |].
  exists e0, rest. split; [exact Herrs |].
  cbn in Herrs. injection Herrs as <- <-. reflexivity.
Defined.

(** ** More on prepared statements *)

Section PreparedMore.

Variable ParseDuration : string -> option Z.
Variable urlParseHost : string -> option string.
Variable isRetryableError : error -> bool.
Variable UnmarshalPrep : RawMessage -> n1qlPrepData -> n1qlPrepData * option error.

Abbreviation exec := (executeN1qlQuery ParseDuration urlParseHost).
Abbreviation prepare := (prepareN1qlQuery ParseDuration urlParseHost UnmarshalPrep).
Abbreviation doPrepared :=
  (doPreparedN1qlQuery ParseDuration urlParseHost isRetryableError UnmarshalPrep).

Lemma exec_inr_sent ctx opts provider w r w1 :
  exec ctx opts provider w = (Ret (inr r), w1) →
  sent w1 = sent w ++ [queryRequest ctx opts] ∧ queryCache w1 = queryCache w.
Proof.
  unfold executeN1qlQuery.
  destruct (jsonMarshal opts) as [e | body] eqn:Hm; [discriminate |].
  apply jsonMarshal_inr in Hm as ->. unfold bind, doHttp.
  destruct (reply _) as [e | resp]; cbn; [discriminate |].
  intros [= _ <-]. by split.
Qed.

Lemma exec_cache ctx opts provider w res w1 :
  exec ctx opts provider w = (Ret res, w1) → queryCache w1 = queryCache w.
Proof.
  intros Hrun.
  destruct (executeN1qlQuery_total ParseDuration urlParseHost ctx opts provider w)
    as (res' & w' & Hrun' & Hc & _).
  rewrite Hrun in Hrun'. by injection Hrun' as _ ->.
Qed.

Lemma prepare_run ctx opts provider w s res w1 :
  opts !! "statement" = Some (VStr s) →
  exec ctx opts provider w = (Ret res, w1) →
  prepare ctx opts provider w
  = (match res with
     | inl e => Ret (inl e)
     | inr prepRes =>
         match One UnmarshalPrep prepRes zeroPrepData with
         | (Panic m, _, _) => Panic m
         | (Ret (Some e), _, _) => Ret (inl e)
         | (Ret None, _, preped) => Ret (inr (planOf preped))
         end
     end, w1).
Proof.
  intros Hs Hrun. unfold prepareN1qlQuery. rewrite Hs. cbn [mustString].
  unfold bind. rewrite Hrun.
  destruct res as [e | prepRes]; [reflexivity |].
  destruct (One UnmarshalPrep prepRes zeroPrepData) as [[[[e |] | m] r] p]; reflexivity.
Qed.

Lemma doPrepared_miss ctx queryOpts provider w s :
  queryOpts !! "statement" = Some (VStr s) → queryCache w !! s = None →
  doPrepared ctx queryOpts provider w
  = prepareAndExecute ParseDuration urlParseHost UnmarshalPrep ctx s queryOpts provider w.
Proof.
  intros Hs Hc. unfold doPreparedN1qlQuery. rewrite Hs. cbn [assertString].
  unfold bind at 1. cbn [lookupCache]. by rewrite Hc.
Qed.

Lemma doPrepared_miss_success ctx queryOpts provider w s prepRes w1 r' preped :
  queryOpts !! "statement" = Some (VStr s) → queryCache w !! s = None →
  exec ctx queryOpts provider w = (Ret (inr prepRes), w1) →
  One UnmarshalPrep prepRes zeroPrepData = (Ret None, r', preped) →
  ∃ res w2,
    doPrepared ctx queryOpts provider w
    = (Ret (usePlan queryOpts (planOf preped), res), w2) ∧
    exec ctx (usePlan queryOpts (planOf preped)) provider
         (snd (storeCache s (planOf preped) w1)) = (Ret res, w2) ∧
    queryCache w2 = <[s := planOf preped]> (queryCache w) ∧
    ∃ l, sent w2 = sent w ++ queryRequest ctx queryOpts :: l ∧ (length l <= 1)%nat ∧
         Forall (fun req => req = queryRequest ctx (usePlan queryOpts (planOf preped))) l.
Proof.
  intros Hs Hc Hrun Hone.
  rewrite (doPrepared_miss _ _ _ _ s Hs Hc). unfold prepareAndExecute.
  unfold bind at 1. rewrite (prepare_run _ _ _ _ s _ _ Hs Hrun), Hone.
  unfold bind at 1. cbn [storeCache].
  destruct (exec_inr_sent _ _ _ _ _ _ Hrun) as (Hsent & Hcache).
  destruct (executeN1qlQuery_total ParseDuration urlParseHost ctx
              (usePlan queryOpts (planOf preped)) provider
              {| now := now w1; queryCache := <[s := planOf preped]> (queryCache w1);
                 sent := sent w1 |})
    as (res & w2 & Hrun2 & Hc2 & _ & l & Hl & Hlen & Hall).
  exists res, w2. unfold bind. rewrite Hrun2. split; [reflexivity |].
  split; [exact Hrun2 |].
  cbn in Hc2, Hl. split; [by rewrite Hc2, Hcache |].
  exists l. rewrite Hl, Hsent, <- app_assoc. by repeat split.
Qed.

Lemma exec_marshal_sent ctx opts provider w :
  jsonMarshal opts = inr opts →
  sent (snd (exec ctx opts provider w)) = sent w ++ [queryRequest ctx opts].
Proof.
  intros Hm. unfold executeN1qlQuery. rewrite Hm. unfold bind, doHttp.
  by destruct (reply _).
Qed.

(** X9. A cache hit whose execution does not fail with a retryable
    error: the cached plan is executed once, in place of the statement;
    there is no prepare step, the cache is untouched, and the result
    (cursor or error) is returned as it came. *)
Theorem cache_hit_executes_cached_plan (ctx : Context) (queryOpts : gmap string value)
    (provider : queryProvider) (w : World) (s : string) (plan : n1qlCache)
    (res : error + n1qlResults) (w1 : World) :
  queryOpts !! "statement" = Some (VStr s) →
  queryCache w !! s = Some plan →
  exec ctx (usePlan queryOpts plan) provider w = (Ret res, w1) →
  (∀ e, res = inl e → isRetryableError e = false) →
  doPrepared ctx queryOpts provider w = (Ret (usePlan queryOpts plan, res), w1) ∧
  queryCache w1 = queryCache w ∧
  (∃ l, sent w1 = sent w ++ l ∧ (length l <= 1)%nat ∧
        Forall (fun req =>
                  Body req !! "statement" = None ∧
                  Body req !! "prepared" = Some (VStr (name plan)) ∧
                  Body req !! "encoded_plan" = Some (VStr (encodedPlan plan))) l).
Proof.
  intros Hs Hc Hrun Hterm. split; [| split].
  - unfold doPreparedN1qlQuery. rewrite Hs. cbn [assertString].
    unfold bind at 1. cbn [lookupCache]. rewrite Hc.
    unfold bind at 1. rewrite Hrun.
    destruct res as [e | r]; [| reflexivity].
    by rewrite (Hterm e eq_refl).
  - by apply exec_cache in Hrun.
  - destruct (executeN1qlQuery_total ParseDuration urlParseHost ctx
                (usePlan queryOpts plan) provider w)
      as (res' & w' & Hrun' & _ & _ & l & Hl & Hlen & Hall).
    rewrite Hrun in Hrun'. injection Hrun' as _ <-.
    exists l. split; [exact Hl |]. split; [exact Hlen |].
    eapply Forall_impl; [exact Hall |]. intros req ->. cbn [Body queryRequest].
    split; [apply usePlan_statement |]. unfold usePlan. split.
    + rewrite lookup_insert_ne by done. apply lookup_insert_eq.
    + apply lookup_insert_eq.
Qed.

(** X10. A cache miss, a prepare round trip that succeeds and a first
    row that decodes: the plan made of that row is stored under the
    statement (other entries are kept); the plan is then executed in
    place of the statement, in the world that the prepare round trip
    and the store left, and what the function returns, result and
    world, is what that execution gives.  The requests of the call are
    the prepare request followed by the one of that execution (exactly
    that one when the option map with the plan can be encoded). *)
Theorem cache_miss_prepares_and_stores (ctx : Context) (queryOpts : gmap string value)
    (provider : queryProvider) (w : World) (s : string) (prepRes : n1qlResults)
    (w1 : World) (r' : n1qlResults) (preped : n1qlPrepData) :
  queryOpts !! "statement" = Some (VStr s) → queryCache w !! s = None →
  exec ctx queryOpts provider w = (Ret (inr prepRes), w1) →
  One UnmarshalPrep prepRes zeroPrepData = (Ret None, r', preped) →
  ∃ res w2,
    doPrepared ctx queryOpts provider w
    = (Ret (usePlan queryOpts (planOf preped), res), w2) ∧
    exec ctx (usePlan queryOpts (planOf preped)) provider
         (snd (storeCache s (planOf preped) w1)) = (Ret res, w2) ∧
    queryCache w2 = <[s := planOf preped]> (queryCache w) ∧
    queryCache w2 !! s = Some (planOf preped) ∧
    (∃ l, sent w2 = sent w ++ queryRequest ctx queryOpts :: l ∧ (length l <= 1)%nat ∧
          Forall (fun req => req = queryRequest ctx (usePlan queryOpts (planOf preped))) l) ∧
    (jsonMarshal (usePlan queryOpts (planOf preped)) = inr (usePlan queryOpts (planOf preped)) →
     sent w2 = sent w ++ [queryRequest ctx queryOpts;
                          queryRequest ctx (usePlan queryOpts (planOf preped))]).
Proof.
  intros Hs Hc Hrun Hone.
  destruct (doPrepared_miss_success ctx queryOpts provider w s prepRes w1 r' preped
              Hs Hc Hrun Hone) as (res & w2 & Hdo & Hexec & Hcache & Hsent).
  exists res, w2. split; [exact Hdo |]. split; [exact Hexec |]. split; [exact Hcache |].
  split; [rewrite Hcache; apply lookup_insert_eq |]. split; [exact Hsent |].
  intros Hm.
  pose proof (exec_marshal_sent ctx _ provider (snd (storeCache s (planOf preped) w1)) Hm)
    as Hreq.
  rewrite Hexec in Hreq. cbn [snd storeCache sent] in Hreq.
  destruct (exec_inr_sent _ _ _ _ _ _ Hrun) as (Hsent1 & _).
  rewrite Hreq, Hsent1, <- app_assoc. reflexivity.
Qed.

(** X11. A cache miss whose prepare step fails, by a failed round trip
    or by a first row that does not decode: the error is returned,
    nothing is stored in the cache, and the option map is returned as
    it was, statement included. *)
Theorem failed_prepare_changes_nothing (ctx : Context) (queryOpts : gmap string value)
    (provider : queryProvider) (w : World) (s : string) (e : error) (w1 : World) :
  queryOpts !! "statement" = Some (VStr s) → queryCache w !! s = None →
  (exec ctx queryOpts provider w = (Ret (inl e), w1) ∨
   ∃ prepRes r' preped,
     exec ctx queryOpts provider w = (Ret (inr prepRes), w1) ∧
     One UnmarshalPrep prepRes zeroPrepData = (Ret (Some e), r', preped)) →
  doPrepared ctx queryOpts provider w = (Ret (queryOpts, inl e), w1) ∧
  queryCache w1 = queryCache w.
Proof.
  intros Hs Hc [Hrun | (prepRes & r' & preped & Hrun & Hone)];
    rewrite (doPrepared_miss _ _ _ _ s Hs Hc); unfold prepareAndExecute;
    unfold bind at 1; rewrite (prepare_run _ _ _ _ s _ _ Hs Hrun);
    (split; [| by apply exec_cache in Hrun]).
  - reflexivity.
  - by rewrite Hone.
Qed.

(** X12. A prepare round trip that succeeds with no rows and no errors:
    [One] reports no error for it, so a plan with empty name and empty
    encoded form is stored under the statement; that empty plan is then
    executed in place of the statement, in the world that the prepare
    round trip and the store left, and the function returns what that
    execution gives (after the prepare request, exactly one more
    request when the option map with the plan can be encoded). *)
Theorem empty_prepare_response_caches_empty_plan (ctx : Context)
    (queryOpts : gmap string value) (provider : queryProvider) (w : World) (s : string)
    (resp : HttpResponse) (n1qlResp : Wire.n1qlResponse) :
  queryOpts !! "statement" = Some (VStr s) → queryCache w !! s = None →
  jsonMarshal queryOpts = inr queryOpts →
  reply (DoHttpRequest provider (now w) (sent w) (queryRequest ctx queryOpts)) = inr resp →
  Decoded resp = inr n1qlResp → Wire.Errors n1qlResp = [] → Wire.Results n1qlResp = [] →
  ∃ res w2,
    doPrepared ctx queryOpts provider w
    = (Ret (usePlan queryOpts {| name := EmptyString; encodedPlan := EmptyString |}, res),
       w2) ∧
    exec ctx (usePlan queryOpts {| name := EmptyString; encodedPlan := EmptyString |})
         provider
         (snd (storeCache s {| name := EmptyString; encodedPlan := EmptyString |}
                 (snd (exec ctx queryOpts provider w))))
    = (Ret res, w2) ∧
    queryCache w2 !! s = Some {| name := EmptyString; encodedPlan := EmptyString |} ∧
    (jsonMarshal (usePlan queryOpts {| name := EmptyString; encodedPlan := EmptyString |})
     = inr (usePlan queryOpts {| name := EmptyString; encodedPlan := EmptyString |}) →
     sent w2
     = sent w ++ [queryRequest ctx queryOpts;
                  queryRequest ctx
                    (usePlan queryOpts {| name := EmptyString; encodedPlan := EmptyString |})]).
Proof.
  intros Hs Hc Hm Hr Hd He Hrows.
  pose proof (executeN1qlQuery_reply ParseDuration urlParseHost ctx queryOpts provider w
                resp Hm Hr) as Hrun.
  rewrite (readResponse_ignores_status _ _ _ _ Hd He) in Hrun.
  assert (∃ r', One UnmarshalPrep
                    (newResults ParseDuration urlParseHost (Endpoint resp) n1qlResp)
                    zeroPrepData = (Ret None, r', zeroPrepData)) as [r' Hone].
  { unfold One, Next, NextBytes. cbn. rewrite Hrows. eexists. reflexivity. }
  destruct (doPrepared_miss_success ctx queryOpts provider w s _ _ r' zeroPrepData
              Hs Hc Hrun Hone) as (res & w2 & Hdo & Hexec & Hcache & _).
  change (planOf zeroPrepData)
    with {| name := EmptyString; encodedPlan := EmptyString |} in Hdo, Hexec, Hcache.
  exists res, w2. split; [exact Hdo |].
  split; [rewrite Hrun; exact Hexec |].
  split; [rewrite Hcache; apply lookup_insert_eq |].
  intros Hm2.
  match type of Hexec with
  | executeN1qlQuery _ _ _ _ _ ?W = _ =>
      pose proof (exec_marshal_sent ctx _ provider W Hm2) as Hreq
  end.
  rewrite Hexec in Hreq. cbn [snd storeCache sent] in Hreq.
  rewrite Hreq, <- app_assoc. reflexivity.
Qed.

Lemma doPrepared_no_statement ctx queryOpts provider w :
  queryOpts !! "statement" = None → queryCache w !! EmptyString = None →
  doPrepared ctx queryOpts provider w
  = (Panic "interface conversion: interface {} is not string", w).
Proof.
  intros Hs Hc. unfold doPreparedN1qlQuery. rewrite Hs. cbn [assertString].
  unfold bind at 1. cbn [lookupCache]. rewrite Hc.
  unfold prepareAndExecute, prepareN1qlQuery. rewrite Hs. reflexivity.
Qed.

(** X13. Cached mode: a unit of work that got as far as executing a
    plan (so that the shared option map has lost its statement) and
    failed with a retryable error, a policy that allows a retry and a
    context that is still live; unless a plan is cached under the empty
    statement, the next attempt panics in the prepare step, after the
    back-off. *)
Theorem retry_after_plan_execution_panics (fuel : nat) (c : Cluster) (ctx : Context)
    (provider : queryProvider) (retries : N) (queryOpts : gmap string value) (w : World)
    (rb : RetryBehavior) (queryOpts1 : gmap string value) (e : error) (w1 : World) :
  ctxDone ctx (now w) = false →
  doPrepared ctx queryOpts provider w = (Ret (queryOpts1, inl e), w1) →
  queryOpts1 !! "statement" = None →
  N1qlRetryBehavior c = Some rb → isRetryableError e = true →
  CanRetry rb (incr retries) = true →
  ctxDone ctx (now (afterSleep (NextInterval rb (incr retries)) w1)) = false →
  queryCache w1 !! EmptyString = None →
  queryLoop isRetryableError (S (S fuel)) c ctx
    (unitOfWork ParseDuration urlParseHost isRetryableError UnmarshalPrep false ctx provider)
    retries queryOpts w
  = (Panic "interface conversion: interface {} is not string",
     afterSleep (NextInterval rb (incr retries)) w1).
Proof.
  intros Hlive Hwork Hgone Hrb Hre Hcan Hlive1 Hempty.
  rewrite (queryLoop_retry isRetryableError (S fuel) c ctx _ retries queryOpts w rb
             queryOpts1 e w1 Hlive Hwork Hrb Hre Hcan).
  cbn [queryLoop]. unfold bind at 1. cbn [getNow]. rewrite Hlive1.
  unfold bind at 1. cbn [unitOfWork].
  rewrite (doPrepared_no_statement ctx queryOpts1 provider _ Hgone); [reflexivity |].
  exact Hempty.
Qed.

End PreparedMore.

Lemma cache_hit_executes_cached_plan_witness :
  ∃ res w1,
    doPreparedN1qlQuery Sample.ParseDuration Sample.urlParseHost Sample.isRetryableError
      Sample.UnmarshalPrep Background {[ "statement" := VStr "SELECT 1" ]}
      (Sample.scripted [] (Sample.answers 200 (Sample.response ["1"] []))) Sample.stalePlan
    = (Ret (usePlan {[ "statement" := VStr "SELECT 1" ]}
                    {| name := "p1"; encodedPlan := "enc:p1" |}, res), w1) ∧
    queryCache w1 = queryCache Sample.stalePlan ∧ length (sent w1) = 1%nat.
Proof.
  edestruct (cache_hit_executes_cached_plan Sample.ParseDuration Sample.urlParseHost
               Sample.isRetryableError Sample.UnmarshalPrep Background
               {[ "statement" := VStr "SELECT 1" ]}
               (Sample.scripted [] (Sample.answers 200 (Sample.response ["1"] [])))
               Sample.stalePlan "SELECT 1" {| name := "p1"; encodedPlan := "enc:p1" |})
    as (Hrun & Hcache & _).
  - reflexivity.
  - reflexivity.
  - vm_compute. reflexivity.
  - intros e He. discriminate He.
  - eexists _, _. split; [exact Hrun |]. split; [exact Hcache | reflexivity].
Defined.

Lemma cache_miss_prepares_and_stores_witness :
  ∃ res w2,
    doPreparedN1qlQuery Sample.ParseDuration Sample.urlParseHost Sample.isRetryableError
      Sample.UnmarshalPrep Background {[ "statement" := VStr "SELECT 1" ]}
      (Sample.scripted [] (Sample.answers 200 (Sample.response ["p7"] []))) Sample.world0
    = (Ret (usePlan {[ "statement" := VStr "SELECT 1" ]}
                    {| name := "p7"; encodedPlan := "enc:p7" |}, res), w2) ∧
    queryCache w2 !! "SELECT 1" = Some {| name := "p7"; encodedPlan := "enc:p7" |}.
Proof.
  edestruct (cache_miss_prepares_and_stores Sample.ParseDuration Sample.urlParseHost
               Sample.isRetryableError Sample.UnmarshalPrep Background
               {[ "statement" := VStr "SELECT 1" ]}
               (Sample.scripted [] (Sample.answers 200 (Sample.response ["p7"] [])))
               Sample.world0 "SELECT 1")
    as (res & w2 & Hrun & _ & _ & Hlookup & _).
  - reflexivity.
  - reflexivity.
  - vm_compute. reflexivity.
  - vm_compute. reflexivity.
  - exists res, w2. split; [exact Hrun | exact Hlookup].
Defined.

Lemma failed_prepare_changes_nothing_witness :
  ∃ w1,
    doPreparedN1qlQuery Sample.ParseDuration Sample.urlParseHost Sample.isRetryableError
      Sample.UnmarshalPrep Background {[ "statement" := VStr "SELECT 1" ]}
      (Sample.scripted [] (Sample.fails "connection reset")) Sample.world0
    = (Ret ({[ "statement" := VStr "SELECT 1" ]}, inl (ProviderError "connection reset")),
       w1) ∧
    queryCache w1 = ∅.
Proof.
  edestruct (failed_prepare_changes_nothing Sample.ParseDuration Sample.urlParseHost
               Sample.isRetryableError Sample.UnmarshalPrep Background
               {[ "statement" := VStr "SELECT 1" ]}
               (Sample.scripted [] (Sample.fails "connection reset"))
               Sample.world0 "SELECT 1" (ProviderError "connection reset"))
    as (Hrun & Hcache).
  - reflexivity.
  - reflexivity.
  - left. vm_compute. reflexivity.
  - eexists. split; [exact Hrun | exact Hcache].
Defined.

Lemma empty_prepare_response_caches_empty_plan_witness :
  ∃ res w2,
    doPreparedN1qlQuery Sample.ParseDuration Sample.urlParseHost Sample.isRetryableError
      Sample.UnmarshalPrep Background {[ "statement" := VStr "SELECT 1" ]}
      (Sample.scripted [] (Sample.answers 200 (Sample.response [] []))) Sample.world0
    = (Ret (usePlan {[ "statement" := VStr "SELECT 1" ]}
                    {| name := EmptyString; encodedPlan := EmptyString |}, res), w2) ∧
    queryCache w2 !! "SELECT 1" = Some {| name := EmptyString; encodedPlan := EmptyString |} ∧
    length (sent w2) = 2%nat.
Proof.
  destruct (empty_prepare_response_caches_empty_plan Sample.ParseDuration
              Sample.urlParseHost Sample.isRetryableError Sample.UnmarshalPrep Background
              {[ "statement" := VStr "SELECT 1" ]}
              (Sample.scripted [] (Sample.answers 200 (Sample.response [] [])))
              Sample.world0 "SELECT 1"
              {| StatusCode := 200; Endpoint := "http://10.0.0.1:8093";
                 Decoded := inr (Sample.response [] []) |}
              (Sample.response [] []))
    as (res & w2 & Hrun & _ & Hlookup & Hsent); [reflexivity .. |].
  exists res, w2. split; [exact Hrun |]. split; [exact Hlookup |].
  rewrite Hsent; reflexivity.
Defined.

Lemma retry_after_plan_execution_panics_witness :
  ∃ w',
    queryLoop Sample.isRetryableError 2 (Sample.cluster (Some Sample.twoRetries))
      {| deadline := Some 75000000000 |}
      (unitOfWork Sample.ParseDuration Sample.urlParseHost Sample.isRetryableError
         Sample.UnmarshalPrep false {| deadline := Some 75000000000 |}
         Sample.prepareThenOverloaded)
      0%N {[ "statement" := VStr "SELECT 1" ]} Sample.world0
    = (Panic "interface conversion: interface {} is not string", w') ∧
    length (sent w') = 2%nat.
Proof.
  eexists. split.
  - eapply (retry_after_plan_execution_panics Sample.ParseDuration Sample.urlParseHost
              Sample.isRetryableError Sample.UnmarshalPrep 0
              (Sample.cluster (Some Sample.twoRetries)) {| deadline := Some 75000000000 |}
              Sample.prepareThenOverloaded 0%N {[ "statement" := VStr "SELECT 1" ]}
              Sample.world0 Sample.twoRetries).
    + reflexivity.
    + vm_compute. reflexivity.
    + vm_compute. reflexivity.
    + reflexivity.
    + reflexivity.
    + reflexivity.
    + reflexivity.
    + reflexivity.
  - reflexivity.
Defined.

(** ** What a call does to the plan cache *)

Section Keeping.

Variable Rel : World → World → Prop.
Hypothesis Rel_refl : ∀ w, Rel w w.
Hypothesis Rel_trans : ∀ w1 w2 w3, Rel w1 w2 → Rel w2 w3 → Rel w1 w3.
Hypothesis Rel_sleep : ∀ d w, Rel w (afterSleep d w).
Hypothesis Rel_http : ∀ p req w, Rel w (snd (doHttp p req w)).

Lemma keeps_ret {A} (a : A) : keeps Rel (ret a).
Proof. intros w. apply Rel_refl. Qed.

Lemma keeps_panic {A} msg : keeps Rel (@panic A msg).
Proof. intros w. apply Rel_refl. Qed.

Lemma keeps_bind {A B} (m : M A) (k : A → M B) :
  keeps Rel m → (∀ a, keeps Rel (k a)) → keeps Rel (bind m k).
Proof.
  intros Hm Hk w. specialize (Hm w). unfold bind.
  destruct (m w) as [[a | msg] w1]; cbn in *; [| exact Hm].
  eapply Rel_trans; [exact Hm | apply Hk].
Qed.

Lemma keeps_getNow : keeps Rel getNow.
Proof. intros w. apply Rel_refl. Qed.

Lemma keeps_lookupCache s : keeps Rel (lookupCache s).
Proof. intros w. apply Rel_refl. Qed.

Variable ParseDuration : string -> option Z.
Variable DurationString : Z -> string.
Variable urlParseHost : string -> option string.
Variable isRetryableError : error -> bool.
Variable UnmarshalPrep : RawMessage -> n1qlPrepData -> n1qlPrepData * option error.

Lemma keeps_execute ctx opts provider :
  keeps Rel (executeN1qlQuery ParseDuration urlParseHost ctx opts provider).
Proof.
  unfold executeN1qlQuery. destruct (jsonMarshal opts); [apply keeps_ret |].
  apply keeps_bind; [intros w; apply Rel_http |].
  intros [e | resp]; apply keeps_ret.
Qed.

Lemma keeps_queryLoop fuel c ctx work :
  (∀ q, keeps Rel (work q)) →
  ∀ retries queryOpts,
    keeps Rel (queryLoop isRetryableError fuel c ctx work retries queryOpts).
Proof.
  intros Hwork. induction fuel as [| fuel IH]; intros retries queryOpts.
  - apply keeps_ret.
  - cbn [queryLoop]. apply keeps_bind; [apply keeps_getNow |].
    intros t. destruct (ctxDone ctx t); [apply IH |].
    apply keeps_bind; [apply Hwork |].
    intros [q' [e | r]]; [| apply keeps_ret].
    destruct (N1qlRetryBehavior c) as [rb |]; [| apply keeps_ret].
    destruct (_ || _); [apply keeps_ret |].
    apply keeps_bind; [intros w; apply Rel_sleep |]. intros _. apply IH.
Qed.

Lemma keeps_adHoc ctx provider queryOpts :
  keeps Rel (unitOfWork ParseDuration urlParseHost isRetryableError UnmarshalPrep
               true ctx provider queryOpts).
Proof.
  cbn [unitOfWork]. apply keeps_bind; [apply keeps_execute |].
  intros res. apply keeps_ret.
Qed.

Lemma keeps_query_with fuel c ctx statement params opts provider :
  (∀ ctx' q, keeps Rel (unitOfWork ParseDuration urlParseHost isRetryableError
                          UnmarshalPrep (Opts.adHoc opts) ctx' provider q)) →
  keeps Rel (query ParseDuration DurationString urlParseHost isRetryableError
               UnmarshalPrep fuel c ctx statement params opts provider).
Proof.
  intros Hwork. unfold query.
  destruct (createQueryOpts statement params opts) as [queryOpts [e |]];
    [apply keeps_ret |].
  destruct (reconcileTimeout _ _ c queryOpts) as [e | [timeout q]]; [apply keeps_ret |].
  apply keeps_bind; [apply keeps_getNow |]. intros t.
  apply keeps_queryLoop. intros q'. apply Hwork.
Qed.

Hypothesis Rel_store : ∀ s plan w, Rel w (snd (storeCache s plan w)).

Lemma keeps_prepare ctx opts provider :
  keeps Rel (prepareN1qlQuery ParseDuration urlParseHost UnmarshalPrep ctx opts provider).
Proof.
  unfold prepareN1qlQuery. destruct (mustString _); [| apply keeps_panic].
  apply keeps_bind; [apply keeps_execute |].
  intros [e | res]; [apply keeps_ret |].
  destruct (One UnmarshalPrep res zeroPrepData) as [[[[e |] | m] r] p];
    first [apply keeps_ret | apply keeps_panic].
Qed.

Lemma keeps_prepareAndExecute ctx stmtStr queryOpts provider :
  keeps Rel (prepareAndExecute ParseDuration urlParseHost UnmarshalPrep
               ctx stmtStr queryOpts provider).
Proof.
  unfold prepareAndExecute. apply keeps_bind; [apply keeps_prepare |].
  intros [e | plan]; [apply keeps_ret |].
  apply keeps_bind; [intros w; apply Rel_store |]. intros _.
  apply keeps_bind; [apply keeps_execute |]. intros res. apply keeps_ret.
Qed.

Lemma keeps_unitOfWork adHoc ctx provider queryOpts :
  keeps Rel (unitOfWork ParseDuration urlParseHost isRetryableError UnmarshalPrep
               adHoc ctx provider queryOpts).
Proof.
  destruct adHoc; [apply keeps_adHoc |].
  cbn [unitOfWork]. unfold doPreparedN1qlQuery.
  destruct (assertString _) as [stmtStr isStr].
  apply keeps_bind; [apply keeps_lookupCache |].
  intros [plan |]; [| apply keeps_prepareAndExecute].
  apply keeps_bind; [apply keeps_execute |].
  intros [e | res]; [| apply keeps_ret].
  destruct (negb _); [apply keeps_ret | apply keeps_prepareAndExecute].
Qed.

End Keeping.

Lemma cacheGrows_insert s plan w :
  cacheGrows w (snd (storeCache s plan w)).
Proof.
  intros s' Hs'. cbn. destruct (decide (s = s')) as [-> | Hne].
  - rewrite lookup_insert_eq. by eexists.
  - by rewrite lookup_insert_ne.
Qed.

Section CacheFacts.

Variable ParseDuration : string -> option Z.
Variable DurationString : Z -> string.
Variable urlParseHost : string -> option string.
Variable isRetryableError : error -> bool.
Variable UnmarshalPrep : RawMessage -> n1qlPrepData -> n1qlPrepData * option error.

(** X14. An ad-hoc call leaves the plan cache exactly as it found it,
    whatever the provider answers, however often it retries and however
    many iterations the loop is run for. *)
Theorem adHoc_leaves_cache_alone (fuel : nat) (c : Cluster) (ctx : Context)
    (statement : string) (params : Params.QueryParameters) (opts : Opts.QueryOptions)
    (provider : queryProvider) (w : World) :
  Opts.adHoc opts = true →
  queryCache (snd (query ParseDuration DurationString urlParseHost isRetryableError
                     UnmarshalPrep fuel c ctx statement params opts provider w))
  = queryCache w.
Proof.
  intros HadHoc.
  apply (keeps_query_with sameCache); unfold sameCache; try done.
  - intros w1 w2 w3 H12 H23. by rewrite H23.
  - intros ctx' q. rewrite HadHoc.
    apply (keeps_adHoc sameCache); unfold sameCache; try done.
    intros w1 w2 w3 H12 H23. by rewrite H23.
Qed.

(** X15. No call, in either mode, removes a plan from the cache: a
    statement that has a plan before the call has one after it (the
    same or a fresher one), also when the call panics. *)
Theorem plans_are_never_removed (fuel : nat) (c : Cluster) (ctx : Context)
    (statement : string) (params : Params.QueryParameters) (opts : Opts.QueryOptions)
    (provider : queryProvider) (w : World) (s : string) :
  is_Some (queryCache w !! s) →
  is_Some (queryCache (snd (query ParseDuration DurationString urlParseHost
                              isRetryableError UnmarshalPrep fuel c ctx statement
                              params opts provider w)) !! s).
Proof.
  revert s. change (cacheGrows w (snd (query ParseDuration DurationString urlParseHost
                      isRetryableError UnmarshalPrep fuel c ctx statement params opts
                      provider w))).
  assert (∀ w0, cacheGrows w0 w0) as Hrefl by (intros w0 s Hs; exact Hs).
  assert (∀ w1 w2 w3, cacheGrows w1 w2 → cacheGrows w2 w3 → cacheGrows w1 w3) as Htrans
    by (intros w1 w2 w3 H12 H23 s Hs; by apply H23, H12).
  apply (keeps_query_with cacheGrows); try done.
  intros ctx' q.
  apply (keeps_unitOfWork cacheGrows); try done.
  apply cacheGrows_insert.
Qed.

End CacheFacts.

Lemma adHoc_leaves_cache_alone_witness :
  queryCache (snd (sampleQuery 4 (Sample.cluster (Some Sample.twoRetries)) Background
                     "SELECT 1" Params.zero (Sample.adHocOpts None)
                     (Sample.scripted [] (Sample.answers 200 Sample.overloaded))
                     Sample.stalePlan))
  = queryCache Sample.stalePlan.
Proof.
  apply (adHoc_leaves_cache_alone Sample.ParseDuration Sample.DurationString
           Sample.urlParseHost Sample.isRetryableError Sample.UnmarshalPrep).
  reflexivity.
Defined.

Lemma plans_are_never_removed_witness :
  is_Some (queryCache (snd (sampleQuery 4 (Sample.cluster None) Background "SELECT 2"
                              Params.zero Opts.zero
                              (Sample.scripted [] (Sample.answers 200 (Sample.response ["p7"] [])))
                              Sample.stalePlan)) !! "SELECT 1").
Proof.
  apply (plans_are_never_removed Sample.ParseDuration Sample.DurationString
           Sample.urlParseHost Sample.isRetryableError Sample.UnmarshalPrep).
  eexists. reflexivity.
Defined.

(** ** More on the retry loop *)

Lemma incr_small (n k : N) : (n <= k)%N → (k + 1 < 2 ^ 64)%N → incr n = (n + 1)%N.
Proof. intros Hn Hk. unfold incr. apply N.mod_small. lia. Qed.

Section LoopMore.

Variable isRetryableError : error -> bool.

(** X16. Under a policy that refuses every attempt number above [k],
    [retries], which goes up by one with every unit of work that is
    started, never exceeds [k + 1]: whatever the unit of work does and
    however long the loop runs, at most [k + 1] attempts are made. *)
Theorem attempts_are_bounded_by_policy (k : N) (rb : RetryBehavior) (c : Cluster)
    (ctx : Context)
    (work : gmap string value -> M (gmap string value * (error + n1qlResults)))
    (fuel : nat) (retries : N) (queryOpts : gmap string value) (w : World)
    (n : N) (res : option (error + n1qlResults)) (w' : World) :
  N1qlRetryBehavior c = Some rb →
  (∀ m, (k < m)%N → CanRetry rb m = false) →
  (k + 1 < 2 ^ 64)%N →
  (retries <= k)%N →
  queryLoop isRetryableError fuel c ctx work retries queryOpts w = (Ret (n, res), w') →
  (n <= k + 1)%N.
Proof.
  intros Hrb Hdeny Hk. revert retries queryOpts w.
  induction fuel as [| fuel IH]; intros retries queryOpts w Hret.
  - cbn. intros [= <- _ _]. lia.
  - cbn [queryLoop]. unfold bind at 1. cbn [getNow].
    destruct (ctxDone ctx (now w)); [by apply IH |].
    rewrite (incr_small retries k Hret Hk).
    unfold bind at 1. destruct (work queryOpts w) as [[[q' [e | r]] | msg] w1];
      [| intros [= <- _ _]; lia | discriminate].
    rewrite Hrb.
    destruct (negb (isRetryableError e) || negb (CanRetry rb (retries + 1))) eqn:Hstop.
    + intros [= <- _ _]. lia.
    + apply orb_false_elim in Hstop as [_ Hcan]. apply negb_false_iff in Hcan.
      unfold bind at 1. cbn [Sleep]. apply IH.
      destruct (N.le_gt_cases (retries + 1) k) as [Hle | Hgt]; [exact Hle |].
      rewrite (Hdeny _ Hgt) in Hcan. discriminate.
Qed.

(** X17. The loop ends with the first attempt that succeeds or fails
    with an error that is not retryable, whatever the policy says: that
    attempt's result is returned as it is, with no back-off after it. *)
Theorem first_final_outcome_ends_the_loop (fuel : nat) (c : Cluster) (ctx : Context)
    (work : gmap string value -> M (gmap string value * (error + n1qlResults)))
    (retries : N) (queryOpts : gmap string value) (w : World)
    (queryOpts' : gmap string value) (res : error + n1qlResults) (w' : World) :
  ctxDone ctx (now w) = false →
  work queryOpts w = (Ret (queryOpts', res), w') →
  (∀ e, res = inl e → isRetryableError e = false) →
  queryLoop isRetryableError (S fuel) c ctx work retries queryOpts w
  = (Ret (incr retries, Some res), w').
Proof.
  intros Hlive Hwork Hfinal. destruct res as [e | r].
  - apply (queryLoop_give_up isRetryableError fuel c ctx work retries queryOpts w
             queryOpts' e w' Hlive Hwork).
    intros rb _. left. by apply Hfinal.
  - by apply (queryLoop_success isRetryableError fuel c ctx work retries queryOpts w
                queryOpts' r w').
Qed.

End LoopMore.

Lemma attempts_are_bounded_by_policy_witness :
  ∃ n res w',
    queryLoop Sample.anyError 9 (Sample.cluster (Some Sample.twoRetries))
      {| deadline := Some 75000000000 |}
      (Sample.failingWork {| deadline := Some 75000000000 |}) 0%N
      {[ "statement" := VStr "SELECT 1" ]} Sample.world0
    = (Ret (n, res), w') ∧ (n <= 3)%N.
Proof.
  eexists _, _, _. split; [vm_compute; reflexivity |].
  eapply (attempts_are_bounded_by_policy Sample.anyError 2 Sample.twoRetries
            (Sample.cluster (Some Sample.twoRetries)) {| deadline := Some 75000000000 |}
            (Sample.failingWork {| deadline := Some 75000000000 |}) 9 0%N
            {[ "statement" := VStr "SELECT 1" ]} Sample.world0).
  - reflexivity.
  - intros m Hm. cbn. apply N.leb_gt. exact Hm.
  - reflexivity.
  - lia.
  - vm_compute. reflexivity.
Defined.

Lemma first_final_outcome_ends_the_loop_witness :
  ∃ w',
    queryLoop Sample.isRetryableError 7 (Sample.cluster (Some Sample.twoRetries))
      {| deadline := Some 75000000000 |}
      (unitOfWork Sample.ParseDuration Sample.urlParseHost Sample.isRetryableError
         Sample.UnmarshalPrep true {| deadline := Some 75000000000 |}
         (Sample.scripted [] (Sample.fails "connection reset")))
      0%N {[ "statement" := VStr "SELECT 1" ]} Sample.world0
    = (Ret (1%N, Some (inl (ProviderError "connection reset"))), w') ∧
    length (sent w') = 1%nat.
Proof.
  eexists. split.
  - eapply (first_final_outcome_ends_the_loop Sample.isRetryableError 6
              (Sample.cluster (Some Sample.twoRetries)) {| deadline := Some 75000000000 |}
              _ 0%N {[ "statement" := VStr "SELECT 1" ]} Sample.world0).
    + reflexivity.
    + vm_compute. reflexivity.
    + intros e [= <-]. reflexivity.
  - reflexivity.
Defined.

(** ** More on [query] and [Query] *)

Lemma createQueryOpts_no_error statement params opts :
  createQueryOpts statement params opts
  = (fst (createQueryOpts statement params opts), None).
Proof. reflexivity. Qed.

Section QueryMore.

Variable ParseDuration : string -> option Z.
Variable DurationString : Z -> string.
Variable urlParseHost : string -> option string.
Variable isRetryableError : error -> bool.
Variable UnmarshalPrep : RawMessage -> n1qlPrepData -> n1qlPrepData * option error.

Abbreviation runQuery :=
  (query ParseDuration DurationString urlParseHost isRetryableError UnmarshalPrep).

(** X18. A "timeout" option that is a string but not a duration makes
    [query] return the parse error at once: no attempt is counted and
    the world is unchanged (nothing is sent, nothing cached). *)
Theorem unparseable_timeout_fails_before_sending (fuel : nat) (c : Cluster) (ctx : Context)
    (statement : string) (params : Params.QueryParameters) (opts : Opts.QueryOptions)
    (provider : queryProvider) (w : World) (s : string) :
  fst (createQueryOpts statement params opts) !! "timeout" = Some (VStr s) →
  ParseDuration s = None →
  runQuery fuel c ctx statement params opts provider w
  = (Ret (0%N, Some (inl (DurationError s))), w).
Proof.
  intros Hs Hp. unfold query. rewrite createQueryOpts_no_error.
  by rewrite (reconcileTimeout_parse_error ParseDuration DurationString c _ s Hs Hp).
Qed.

Lemma execute_builtFor ctx opts provider :
  sending (builtFor ctx) (fun _ => True)
          (executeN1qlQuery ParseDuration urlParseHost ctx opts provider).
Proof.
  unfold executeN1qlQuery. destruct (jsonMarshal opts) as [e | body]; [by apply sending_ret |].
  apply (sending_bind _ (fun _ => True)); [by apply sending_doHttp |].
  intros [e | resp] _; by apply sending_ret.
Qed.

Lemma prepareAndExecute_builtFor ctx stmtStr queryOpts provider :
  sending (builtFor ctx) (fun _ => True)
          (prepareAndExecute ParseDuration urlParseHost UnmarshalPrep
             ctx stmtStr queryOpts provider).
Proof.
  unfold prepareAndExecute, prepareN1qlQuery.
  apply (sending_bind _ (fun _ => True)).
  - destruct (mustString _) as [s | m]; [| apply sending_panic].
    apply (sending_bind _ (fun _ => True)); [apply execute_builtFor |].
    intros [e | res] _; [by apply sending_ret |].
    destruct (One UnmarshalPrep res zeroPrepData) as [[[[e |] | m] r] p];
      first [by apply sending_ret | apply sending_panic].
  - intros [e | plan] _; [by apply sending_ret |].
    apply (sending_bind _ (fun _ => True)); [by apply sending_quiet |].
    intros _ _. apply (sending_bind _ (fun _ => True)); [apply execute_builtFor |].
    intros res _. by apply sending_ret.
Qed.

Lemma unitOfWork_builtFor adHoc ctx provider queryOpts :
  sending (builtFor ctx) (fun _ => True)
          (unitOfWork ParseDuration urlParseHost isRetryableError UnmarshalPrep
             adHoc ctx provider queryOpts).
Proof.
  unfold unitOfWork. destruct adHoc.
  - apply (sending_bind _ (fun _ => True)); [apply execute_builtFor |].
    intros res _. by apply sending_ret.
  - unfold doPreparedN1qlQuery. destruct (assertString _) as [stmtStr isStr].
    apply (sending_bind _ (fun _ => True)); [by apply sending_quiet |].
    intros [plan |] _; [| apply prepareAndExecute_builtFor].
    apply (sending_bind _ (fun _ => True)); [apply execute_builtFor |].
    intros [e | res] _; [| by apply sending_ret].
    destruct (negb _); [by apply sending_ret | apply prepareAndExecute_builtFor].
Qed.

Lemma queryLoop_sending_any Q fuel c ctx work :
  (∀ q, sending Q (fun _ => True) (work q)) →
  ∀ retries queryOpts,
    sending Q (fun _ => True)
            (queryLoop isRetryableError fuel c ctx work retries queryOpts).
Proof.
  intros Hwork. induction fuel as [| fuel IH]; intros retries queryOpts.
  - by apply sending_ret.
  - cbn [queryLoop].
    apply (sending_bind _ (fun _ => True)); [by apply sending_quiet |].
    intros t _. destruct (ctxDone ctx t); [apply IH |].
    apply (sending_bind _ (fun _ => True)); [apply Hwork |].
    intros [q' [e | r]] _; [| by apply sending_ret].
    destruct (N1qlRetryBehavior c) as [rb |]; [| by apply sending_ret].
    destruct (_ || _); [by apply sending_ret |].
    apply (sending_bind _ (fun _ => True)); [by apply sending_quiet |].
    intros _ _. apply IH.
Qed.

Lemma reconcileTimeout_le c queryOpts timeout queryOpts' :
  reconcileTimeout ParseDuration DurationString c queryOpts = inr (timeout, queryOpts') →
  timeout <= n1qlTimeout c.
Proof.
  unfold reconcileTimeout. destruct (assertString _) as [tmostr castok].
  destruct (if castok then ParseDuration tmostr else Some 0) as [d |]; [| discriminate].
  intros [= <- _].
  destruct (Z.ltb_spec 0 d), (Z.ltb_spec d (n1qlTimeout c)); cbn; lia.
Qed.

Lemma WithTimeout_deadline parent timeout t :
  ∃ d, deadline (WithTimeout parent timeout t) = Some d ∧ d <= t + timeout ∧
       ∀ p, deadline parent = Some p → d <= p.
Proof.
  unfold WithTimeout. cbn. destruct (deadline parent) as [p |].
  - exists (Z.min p (t + timeout)). repeat split; [lia |]. intros ? [= <-]. lia.
  - exists (t + timeout). repeat split; [lia | discriminate].
Qed.

(** X19. Every request of a call, in either mode and on every attempt,
    is a POST to /query/service of the N1QL service, and the context it
    carries has a deadline that is no later than the client default
    timeout after the start of the call and no later than the caller's
    own deadline, if it has one. *)
Theorem requests_carry_bounded_deadline (fuel : nat) (c : Cluster) (ctx : Context)
    (statement : string) (params : Params.QueryParameters) (opts : Opts.QueryOptions)
    (provider : queryProvider) (w : World) :
  ∃ l, sent (snd (runQuery fuel c ctx statement params opts provider w)) = sent w ++ l ∧
       Forall (fun req =>
                 Service req = N1qlService ∧ Path req = "/query/service" ∧
                 Method req = "POST" ∧
                 ∃ d, deadline (ReqContext req) = Some d ∧
                      d <= now w + n1qlTimeout c ∧
                      ∀ p, deadline ctx = Some p → d <= p) l.
Proof.
  unfold query. rewrite createQueryOpts_no_error.
  destruct (reconcileTimeout _ _ c _) as [e | [timeout q]] eqn:Hrec.
  { exists []. cbn. by rewrite app_nil_r. }
  apply reconcileTimeout_le in Hrec.
  unfold bind at 1. cbn [getNow].
  destruct (queryLoop_sending_any (builtFor (WithTimeout ctx timeout (now w))) fuel c
              (WithTimeout ctx timeout (now w))
              (unitOfWork ParseDuration urlParseHost isRetryableError UnmarshalPrep
                 (Opts.adHoc opts) (WithTimeout ctx timeout (now w)) provider)
              ltac:(intros q'; apply unitOfWork_builtFor) 0%N q w)
    as (l & Hl & Hall & _).
  exists l. split; [exact Hl |].
  eapply Forall_impl; [exact Hall |].
  intros req (Hsvc & Hpath & Hmeth & ->). repeat split; try assumption.
  destruct (WithTimeout_deadline ctx timeout (now w)) as (d & Hd & Hle & Hparent).
  exists d. repeat split; [exact Hd | lia | exact Hparent].
Qed.

Lemma zero_opts_no_timeout statement params :
  fst (createQueryOpts statement params Opts.zero) !! "timeout" = None.
Proof.
  unfold createQueryOpts. cbn [fst Opts.options Opts.zero Opts.positionalParams
                                 Opts.namedParams default].
  rewrite !map_fold_empty.
  destruct (Params.positionalParams params);
    [by rewrite lookup_insert_ne | destruct (Params.namedParams params)];
    by rewrite ?map_fold_empty.
Qed.

(** X20. [Query] with nil options: when [getQueryProvider] fails, its
    error is returned and nothing happens; otherwise the call runs
    under the background context with the client default timeout, so
    every request has that timeout under "timeout" and a deadline of
    exactly the start of the call plus the default. *)
Theorem Query_with_nil_options (fuel : nat) (c : Cluster) (statement : string)
    (params : option Params.QueryParameters) (w : World) :
  (∀ e, Query ParseDuration DurationString urlParseHost isRetryableError UnmarshalPrep
          fuel c statement params None (inl e) w
        = (Ret (0%N, Some (inl e)), w)) ∧
  (∀ provider,
     ∃ l, sent (snd (Query ParseDuration DurationString urlParseHost isRetryableError
                       UnmarshalPrep fuel c statement params None (inr provider) w))
          = sent w ++ l ∧
          Forall (fun req =>
                    Body req !! "timeout" = Some (VStr (DurationString (n1qlTimeout c))) ∧
                    deadline (ReqContext req) = Some (now w + n1qlTimeout c)) l).
Proof.
  split; [reflexivity |]. intros provider. unfold Query. cbn [default Opts.ctx Opts.zero].
  pose proof (query_requests_carry_timeout ParseDuration DurationString urlParseHost
                isRetryableError UnmarshalPrep fuel c Background statement
                (default Params.zero params) Opts.zero provider w) as Hcarry.
  cbv zeta in Hcarry.
  pose proof (zero_opts_no_timeout statement (default Params.zero params)) as Hnone.
  pose proof (reconcileTimeout_ok ParseDuration DurationString c
                (fst (createQueryOpts statement (default Params.zero params) Opts.zero)))
    as Hrec.
  set (q0 := fst (createQueryOpts statement (default Params.zero params) Opts.zero)) in *.
  unfold override in Hcarry, Hrec. rewrite Hnone in Hcarry, Hrec.
  cbn [specTimeout] in Hcarry, Hrec.
  destruct Hrec as (q' & Hrec & _); [intros s Hs; discriminate Hs |].
  unfold query in Hcarry |- *.
  change (createQueryOpts statement (default Params.zero params) Opts.zero)
    with (q0, @None error) in Hcarry |- *.
  cbv iota in Hcarry |- *. rewrite Hrec in Hcarry |- *.
  destruct Hcarry as (l & Hl & Hcarry).
  exists l. split; [exact Hl |].
  unfold bind at 1 in Hl. cbn [getNow] in Hl.
  destruct (queryLoop_sending_any (builtFor (WithTimeout Background (n1qlTimeout c) (now w)))
              fuel c (WithTimeout Background (n1qlTimeout c) (now w))
              (unitOfWork ParseDuration urlParseHost isRetryableError UnmarshalPrep
                 false (WithTimeout Background (n1qlTimeout c) (now w)) provider)
              ltac:(intros q1; apply unitOfWork_builtFor) 0%N q' w)
    as (l' & Hl' & Hall & _).
  cbn [Opts.adHoc Opts.zero] in Hl. rewrite Hl' in Hl.
  apply app_inv_head in Hl as ->.
  apply Forall_and. split; [exact Hcarry |].
  eapply Forall_impl; [exact Hall |]. by intros req (_ & _ & _ & ->).
Qed.

End QueryMore.

Lemma unparseable_timeout_fails_before_sending_witness :
  sampleQuery 5 (Sample.cluster None) Background "SELECT 1" Params.zero
    (Sample.adHocOpts (Some "soon"))
    (Sample.scripted [] (Sample.answers 200 (Sample.response ["1"] []))) Sample.world0
  = (Ret (0%N, Some (inl (DurationError "soon"))), Sample.world0).
Proof.
  apply (unparseable_timeout_fails_before_sending Sample.ParseDuration Sample.DurationString
           Sample.urlParseHost Sample.isRetryableError Sample.UnmarshalPrep);
    vm_compute; reflexivity.
Defined.

(** ** More on the option map *)

Lemma fold_insert_lookup (m base : gmap string value) k :
  map_fold (fun k v acc => <[k := v]> acc) base m !! k
  = match m !! k with Some v => Some v | None => base !! k end.
Proof.
  revert k.
  apply (map_fold_weak_ind
           (fun acc (m : gmap string value) =>
              ∀ k, acc !! k = match m !! k with Some v => Some v | None => base !! k end)).
  - intros k. by rewrite lookup_empty.
  - intros i x m' acc Hi IH k. destruct (decide (i = k)) as [-> | Hne].
    + by rewrite !lookup_insert_eq.
    + rewrite !lookup_insert_ne by done. apply IH.
Qed.

Lemma fold_named_other (m base : gmap string value) k :
  (∀ k', k ≠ "$" +:+ k') →
  map_fold (fun key v acc => <["$" +:+ key := v]> acc) base m !! k = base !! k.
Proof.
  intros Hk.
  apply (map_fold_weak_ind
           (fun acc (m : gmap string value) => acc !! k = base !! k)); [done |].
  intros i x m' acc Hi IH. rewrite lookup_insert_ne; [exact IH |].
  intros Heq. by apply (Hk i).
Qed.

Lemma base_lookup statement opts k :
  map_fold (fun k v acc => <[k := v]> acc)
           ({[ "statement" := VStr statement ]} : gmap string value)
           (Opts.options opts) !! k
  = freeForm statement opts k.
Proof.
  rewrite fold_insert_lookup. unfold freeForm.
  destruct (Opts.options opts !! k); [reflexivity |].
  destruct (decide (k = "statement")) as [-> | Hne].
  - apply lookup_singleton_eq.
  - by apply lookup_singleton_ne.
Qed.

(** X21. Every free-form option is passed on under its own name, unless
    the name is "args" or starts with "$"; this includes an option
    called "statement", which then replaces the query text.  Under any
    other name the map holds nothing but the statement. *)
Theorem free_form_options_pass_through (statement : string)
    (params : Params.QueryParameters) (opts : Opts.QueryOptions) (k : string) :
  k ≠ "args" → (∀ k', k ≠ "$" +:+ k') →
  fst (createQueryOpts statement params opts) !! k = freeForm statement opts k ∧
  snd (createQueryOpts statement params opts) = None.
Proof.
  intros Hargs Hdollar. split; [| reflexivity].
  unfold createQueryOpts. cbn [fst].
  destruct (Params.positionalParams params).
  - rewrite lookup_insert_ne by done. apply base_lookup.
  - destruct (Params.namedParams params).
    + rewrite (fold_named_other _ _ k Hdollar). apply base_lookup.
    + apply base_lookup.
Qed.

(** X22. The two parameter styles exclude each other.  With positional
    parameters in [params], "args" is the only entry written on top of
    statement and free-form options: no named parameter is written,
    whatever [params] and [opts] hold of them.  Without positional
    parameters in [params], nothing is written under "args". *)
Theorem parameter_styles_exclude_each_other (statement : string)
    (params : Params.QueryParameters) (opts : Opts.QueryOptions) :
  (∀ l k, Params.positionalParams params = Some l → k ≠ "args" →
          fst (createQueryOpts statement params opts) !! k = freeForm statement opts k) ∧
  (Params.positionalParams params = None →
   fst (createQueryOpts statement params opts) !! "args" = freeForm statement opts "args").
Proof.
  split.
  - intros l k Hp Hk. unfold createQueryOpts. rewrite Hp. cbn [fst].
    rewrite lookup_insert_ne by done. apply base_lookup.
  - intros Hp. unfold createQueryOpts. rewrite Hp. cbn [fst].
    destruct (Params.namedParams params); [| apply base_lookup].
    rewrite fold_named_other; [apply base_lookup |].
    intros k'. cbn. intros [= ?].
Qed.

Lemma free_form_options_pass_through_witness :
  fst (createQueryOpts "SELECT 1" Params.zero
         {| Opts.options := {[ "statement" := VStr "SELECT 2"; "scan_consistency" := VStr "request_plus" ]};
            Opts.positionalParams := None; Opts.namedParams := None;
            Opts.ctx := None; Opts.adHoc := true |}) !! "statement"
  = Some (VStr "SELECT 2").
Proof.
  refine (eq_trans (proj1 (free_form_options_pass_through "SELECT 1" Params.zero _
                             "statement" _ _)) _).
  - discriminate.
  - intros k'. cbn. discriminate.
  - reflexivity.
Defined.

Lemma parameter_styles_exclude_each_other_witness :
  fst (createQueryOpts "SELECT 1"
         {| Params.positionalParams := Some [VInt 1];
            Params.namedParams := Some {[ "a" := VInt 2 ]} |}
         {| Opts.options := ∅; Opts.positionalParams := Some [VInt 1];
            Opts.namedParams := Some {[ "a" := VInt 2 ]};
            Opts.ctx := None; Opts.adHoc := true |}) !! "$a" = None ∧
  fst (createQueryOpts "SELECT 1"
         {| Params.positionalParams := None;
            Params.namedParams := Some {[ "a" := VInt 2 ]} |}
         {| Opts.options := ∅; Opts.positionalParams := Some [VInt 1];
            Opts.namedParams := Some {[ "a" := VInt 2 ]};
            Opts.ctx := None; Opts.adHoc := true |}) !! "args" = None.
Proof.
  split.
  - refine (eq_trans (proj1 (parameter_styles_exclude_each_other "SELECT 1" _ _)
                        [VInt 1] "$a" _ _) _).
    + reflexivity.
    + discriminate.
    + reflexivity.
  - refine (eq_trans (proj2 (parameter_styles_exclude_each_other "SELECT 1" _ _) _) _).
    + reflexivity.
    + reflexivity.
Defined.

(** ** The retry loop of the search path *)

Section SearchLoop.

Context {R : Type}.
Variable isRetryableError : error -> bool.

Lemma searchLoop_returns (policy : option RetryBehavior) (ctx : Context)
    (work : M (error + R)) (d δ : Z) :
  deadline ctx = Some d → 0 < δ →
  (∀ w, ∃ res w', work w = (Ret res, w') ∧ now w + δ <= now w') →
  ∀ (f : nat) retries w,
    d - now w <= Z.of_nat f * δ →
    ∃ n res w',
      searchLoop isRetryableError (S f) policy ctx work retries w
      = (Ret (n, Some res), w').
Proof.
  intros Hd Hδ Hwork. induction f as [| f IH]; intros retries w Hbudget.
  - cbn [searchLoop]. unfold bind, getNow. unfold ctxDone. rewrite Hd.
    destruct (Z.leb_spec d (now w)); [by eexists _, _, _ | lia].
  - cbn [searchLoop]. unfold bind at 1. cbn [getNow].
    destruct (ctxDone ctx (now w)); [by eexists _, _, _ |].
    unfold bind at 1. destruct (Hwork w) as (res & w' & -> & Hlater).
    destruct res as [e | r]; [| by eexists _, _, _].
    destruct policy as [rb |]; [| by eexists _, _, _].
    destruct (_ || _); [by eexists _, _, _ |].
    unfold bind at 1. cbn [Sleep]. apply IH. cbn [now]. lia.
Qed.

(** X23. The loop of [searchQuery] returns the context's error as soon
    as it finds the context done at the top of an iteration, without
    running the unit of work; and when the context has a deadline and
    every attempt takes at least some fixed positive time, the loop
    always returns, whatever the policy allows: one iteration more
    than the remaining time divided by that duration is enough. *)
Theorem search_loop_always_returns (policy : option RetryBehavior) (ctx : Context)
    (work : M (error + R)) (retries : N) (w : World) (d δ : Z) (f : nat) :
  (ctxDone ctx (now w) = true →
     searchLoop isRetryableError (S f) policy ctx work retries w
     = (Ret (retries, Some (inl DeadlineExceeded)), w)) ∧
  (deadline ctx = Some d → 0 < δ →
     (∀ w0, ∃ res w', work w0 = (Ret res, w') ∧ now w0 + δ <= now w') →
     d - now w <= Z.of_nat f * δ →
     ∃ n res w',
       searchLoop isRetryableError (S f) policy ctx work retries w
       = (Ret (n, Some res), w')).
Proof.
  split.
  - intros Hdone. cbn [searchLoop]. unfold bind, getNow. by rewrite Hdone.
  - intros Hd Hδ Hwork Hbudget.
    by apply (searchLoop_returns policy ctx work d δ Hd Hδ Hwork).
Qed.

End SearchLoop.

Lemma search_loop_always_returns_witness :
  searchLoop Sample.anyError 6 (Some Sample.alwaysRetry) {| deadline := Some 0 |}
    Sample.slowFailure 0%N Sample.world0
  = (Ret (0%N, Some (inl DeadlineExceeded)), Sample.world0) ∧
  ∃ n res w',
    searchLoop Sample.anyError 6 (Some Sample.alwaysRetry) {| deadline := Some 5000000 |}
      Sample.slowFailure 0%N Sample.world0
    = (Ret (n, Some res), w').
Proof.
  split.
  - apply (search_loop_always_returns Sample.anyError (Some Sample.alwaysRetry)
             {| deadline := Some 0 |} Sample.slowFailure 0%N Sample.world0 0 1 5).
    reflexivity.
  - apply (search_loop_always_returns Sample.anyError (Some Sample.alwaysRetry)
             {| deadline := Some 5000000 |} Sample.slowFailure 0%N Sample.world0
             5000000 1000000 5).
    + reflexivity.
    + lia.
    + intros w0. eexists _, _. split; [reflexivity |]. cbn. lia.
    + cbn. lia.
Defined.

(** ** State blocks *)

Lemma list_ascii_app (p s : string) :
  String.list_ascii_of_string (p +:+ s) = String.list_ascii_of_string p ++ String.list_ascii_of_string s.
Proof. induction p as [| a p IH]; simpl; [reflexivity | by f_equal]. Qed.

Lemma list_ascii_inj (p q : string) :
  String.list_ascii_of_string p = String.list_ascii_of_string q → p = q.
Proof.
  intros H. rewrite <- (String.string_of_list_ascii_of_string p),
    <- (String.string_of_list_ascii_of_string q). by rewrite H.
Qed.

Lemma append_cancel_r (s p q : string) : p +:+ s = q +:+ s → p = q.
Proof.
  intros H. apply (f_equal String.list_ascii_of_string) in H.
  rewrite !list_ascii_app in H. apply app_inv_tail in H. by apply list_ascii_inj.
Qed.

(** Two strings that end in different texts of the same length are
    different. *)
Lemma suffix_clash (p q a b x y : string) :
  String.length x = String.length y → x ≠ y → p +:+ a +:+ x ≠ q +:+ b +:+ y.
Proof.
  intros Hlen Hne H. apply (f_equal String.list_ascii_of_string) in H.
  rewrite !list_ascii_app, !app_assoc in H.
  apply app_inj_2 in H as [_ H]; [apply Hne; by apply list_ascii_inj |].
  clear H Hne. revert y Hlen.
  induction x as [| c x IH]; intros [| c' y]; simpl; try discriminate; [done |].
  intros [= Hlen]. f_equal. by apply IH.
Qed.

Section StateBlocks.

Variable fmtB : bool -> string.

(** X24. Provided the two texts that [fmt] prints for a bool under
    [%b] cannot be told apart at the end of a string, [Hash] tells any
    two client state blocks apart: equal hashes mean the same bucket
    name and the same mutation-token flag, also for bucket names that
    contain "-". *)
Theorem Hash_is_injective (sb1 sb2 : clientStateBlock) :
  (∀ p q, p +:+ fmtB true ≠ q +:+ fmtB false) →
  clientStateBlock_Hash fmtB sb1 = clientStateBlock_Hash fmtB sb2 →
  sb1 = sb2.
Proof.
  intros Hclash. destruct sb1 as [n1 b1], sb2 as [n2 b2].
  unfold clientStateBlock_Hash. cbn [BucketName UseMutationTokens]. intros H.
  assert (∀ n b, n +:+ "-" +:+ fmtB b = (n +:+ "-") +:+ fmtB b) as Hassoc.
  { intros n b. apply list_ascii_inj. by rewrite !list_ascii_app, app_assoc. }
  destruct b1, b2.
  - by apply append_cancel_r in H as ->.
  - rewrite !Hassoc in H. by apply Hclash in H.
  - rewrite !Hassoc in H. symmetry in H. by apply Hclash in H.
  - by apply append_cancel_r in H as ->.
Qed.

Context {client : Type}.
Variable clientHash : client -> string.
Variable clusterGetClient : clientStateBlock -> option client.

(** X25. [recacheClient] changes nothing but the cached client, and
    leaves the whole block as it is when the cached client's hash is
    the block's.  When the cluster only hands out clients whose hash is
    that of the block they were asked for, the client that [getClient]
    returns after a [recacheClient] always has the hash of the state
    block, so a stale client is never served.  [getClient] panics after
    a [recacheClient] only when no matching client was cached and the
    cluster returned nil. *)
Theorem recacheClient_serves_matching_client (sb : stateBlock client) :
  (clientBlock (recacheClient fmtB clientHash clusterGetClient sb) = clientBlock sb ∧
   ScopeName (recacheClient fmtB clientHash clusterGetClient sb) = ScopeName sb ∧
   CollectionName (recacheClient fmtB clientHash clusterGetClient sb) = CollectionName sb ∧
   KvTimeout (recacheClient fmtB clientHash clusterGetClient sb) = KvTimeout sb ∧
   PersistTo (recacheClient fmtB clientHash clusterGetClient sb) = PersistTo sb ∧
   ReplicateTo (recacheClient fmtB clientHash clusterGetClient sb) = ReplicateTo sb) ∧
  (∀ c, cachedClient sb = Some c →
        clientHash c = clientStateBlock_Hash fmtB (clientBlock sb) →
        recacheClient fmtB clientHash clusterGetClient sb = sb) ∧
  ((∀ c, cachedClient sb = Some c →
         clientHash c ≠ clientStateBlock_Hash fmtB (clientBlock sb)) →
   cachedClient (recacheClient fmtB clientHash clusterGetClient sb)
   = clusterGetClient (clientBlock sb)) ∧
  ((∀ b c, clusterGetClient b = Some c → clientHash c = clientStateBlock_Hash fmtB b) →
   ∀ c, stateBlock_getClient (recacheClient fmtB clientHash clusterGetClient sb) = Ret c →
        clientHash c = clientStateBlock_Hash fmtB (clientBlock sb)) ∧
  (∀ m, stateBlock_getClient (recacheClient fmtB clientHash clusterGetClient sb) = Panic m →
        clusterGetClient (clientBlock sb) = None ∧
        ∀ c, cachedClient sb = Some c →
             clientHash c ≠ clientStateBlock_Hash fmtB (clientBlock sb)).
Proof.
  unfold recacheClient, stateBlock_getClient.
  destruct (cachedClient sb) as [c0 |] eqn:Hc0.
  - destruct (String.eqb_spec (clientHash c0) (clientStateBlock_Hash fmtB (clientBlock sb)))
      as [Heq | Hne].
    + rewrite Hc0. split; [by repeat split |]. split; [done |].
      split; [intros Hstale; by destruct (Hstale c0 eq_refl) |].
      split; [by intros _ c [= <-] | discriminate].
    + cbn. split; [by repeat split |].
      split; [intros c [= <-] Heq; by destruct Hne |].
      split; [done |]. split.
      * intros Hcluster c Hc.
        destruct (clusterGetClient (clientBlock sb)) as [c' |] eqn:Hg; [| discriminate].
        injection Hc as <-. by apply Hcluster.
      * intros m Hm. split; [by destruct (clusterGetClient (clientBlock sb)) |].
        by intros c [= <-].
  - cbn. split; [by repeat split |]. split; [discriminate |]. split; [done |]. split.
    + intros Hcluster c Hc.
      destruct (clusterGetClient (clientBlock sb)) as [c' |] eqn:Hg; [| discriminate].
      injection Hc as <-. by apply Hcluster.
    + intros m Hm. split; [by destruct (clusterGetClient (clientBlock sb)) | discriminate].
Qed.

End StateBlocks.

Lemma Hash_is_injective_witness :
  clientStateBlock_Hash Sample.fmtB {| BucketName := "beer-sample"; UseMutationTokens := false |}
  = "beer-sample-%!b(bool=false)" ∧
  ∀ sb, clientStateBlock_Hash Sample.fmtB sb = "beer-sample-%!b(bool=false)" →
        sb = {| BucketName := "beer-sample"; UseMutationTokens := false |}.
Proof.
  split; [reflexivity |]. intros sb Hsb.
  apply (Hash_is_injective Sample.fmtB sb
           {| BucketName := "beer-sample"; UseMutationTokens := false |}).
  - intros p q.
    apply (suffix_clash p q "%!b(bool=" "%!b(bool=f" "true)" "alse)");
      [reflexivity | discriminate].
  - exact Hsb.
Defined.

Lemma recacheClient_serves_matching_client_witness :
  stateBlock_getClient
    (recacheClient Sample.fmtB (clientStateBlock_Hash Sample.fmtB)
       (fun b => Some b) (Sample.staleBlock "beer-sample"))
  = Ret {| BucketName := "beer-sample"; UseMutationTokens := false |} ∧
  clientStateBlock_Hash Sample.fmtB {| BucketName := "beer-sample"; UseMutationTokens := false |}
  = clientStateBlock_Hash Sample.fmtB (clientBlock (Sample.staleBlock "beer-sample")) ∧
  recacheClient Sample.fmtB (clientStateBlock_Hash Sample.fmtB) (fun b => Some b)
    (Sample.staleBlock "travel-sample")
  = Sample.staleBlock "travel-sample".
Proof.
  destruct (recacheClient_serves_matching_client Sample.fmtB
              (clientStateBlock_Hash Sample.fmtB) (fun b => Some b)
              (Sample.staleBlock "beer-sample")) as (_ & _ & _ & Hserved & _).
  destruct (recacheClient_serves_matching_client Sample.fmtB
              (clientStateBlock_Hash Sample.fmtB) (fun b => Some b)
              (Sample.staleBlock "travel-sample")) as (_ & Hkept & _).
  split; [reflexivity |]. split.
  - apply Hserved; [by intros b c [= <-] | reflexivity].
  - apply (Hkept {| BucketName := "travel-sample"; UseMutationTokens := false |});
      reflexivity.
Defined.
